(** * Paperless-AI MCP server (src/mcp-server.js)

    A shallow embedding of the tool registry, the tool dispatcher, the
    search handler [searchDocuments] and the retrieval handler
    [getDocument] of [PaperlessAIMCPServer], with the JavaScript
    operations they rely on.

    - JavaScript values are the JSON data the handlers see (arguments of a
      tool call, responses of the two services) plus [undefined].  Numbers
      are carried by their integer value; the handlers only pass numbers
      through or hand them to [Array.prototype.slice].
    - The two services ([ragService], [paperlessService]) are not part of
      the modelled file: they are fields of the [World] a handler runs in,
      each call answering with a value or rejecting with an error object.
    - A handler is a computation [M ResponseEnvelope]: it reads the world,
      appends to the record of service calls and to the console, and ends
      normally or by throwing. *)

From Stdlib Require Import ZArith List String Ascii Bool Lia QArith.
From Stdlib Require Import DecimalString DecimalZ.
Import ListNotations.

Local Open Scope list_scope.
Local Open Scope string_scope.

(** ** Values *)

#[local] Set Warnings "-register-all".

(** [VObj] lists the own properties of an object in their order, each
    name once. *)

Inductive JsVal : Type :=
| VUndefined
| VNull
| VBool (b : bool)
| VNum (z : Z)
| VStr (s : string)
| VArr (items : list JsVal)
| VObj (fields : list (string * JsVal)).

(** Error objects: what [throw] carries and what a rejected promise holds.
    The services reject with [Error] instances and the runtime throws
    [TypeError]s; both have a [message]. *)
Record JsError : Type := mkError { error_name : string; message : string }.

Definition Error (msg : string) : JsError := mkError "Error" msg.
Definition TypeError (msg : string) : JsError := mkError "TypeError" msg.

(** Completion of an evaluation: a value, or a thrown error. *)
Inductive Outcome (A : Type) : Type :=
| Ok (a : A)
| Throw (e : JsError).

Arguments Ok {A} a.
Arguments Throw {A} e.

Definition obind {A B : Type} (o : Outcome A) (k : A -> Outcome B) : Outcome B :=
  match o with
  | Ok a => k a
  | Throw e => Throw e
  end.

(** Results of [ToNumber]. *)
Inductive JsNumber : Type :=
| NaN
| PosInfinity
| NegInfinity
| Finite (q : Q).

(** Results of [ToIntegerOrInfinity]. *)
Inductive IntOrInfinity : Type :=
| MinusInf
| Int (z : Z)
| PlusInf.

(** ** Primitive operations *)

(** [ToBoolean]. *)
Definition truthy (v : JsVal) : bool :=
  match v with
  | VUndefined | VNull => false
  | VBool b => b
  | VNum z => negb (z =? 0)%Z
  | VStr s => negb (String.eqb s EmptyString)
  | VArr _ | VObj _ => true
  end.

(** [a || b] on already evaluated operands (the right operands in the
    source are constants or cannot be observed when skipped). *)
Definition js_or (a b : JsVal) : JsVal := if truthy a then a else b.

Definition nullish (v : JsVal) : bool :=
  match v with
  | VUndefined | VNull => true
  | _ => false
  end.

(** [v !== null]. *)
Definition not_null (v : JsVal) : bool :=
  match v with
  | VNull => false
  | _ => true
  end.

Fixpoint assoc (k : string) (fields : list (string * JsVal)) : option JsVal :=
  match fields with
  | [] => None
  | (k', v) :: rest => if String.eqb k k' then Some v else assoc k rest
  end.

Definition type_name (v : JsVal) : string :=
  match v with
  | VNull => "null"
  | _ => "undefined"
  end.

Definition cannot_read (v : JsVal) (k : string) : JsError :=
  TypeError ("Cannot read properties of " ++ type_name v ++ " (reading '" ++ k ++ "')").

Definition not_a_function (callee : string) : JsError :=
  TypeError (callee ++ " is not a function").

(** [v.k] for the data properties the handlers read: own properties of an
    object, [length] of arrays and strings, [undefined] otherwise; reading
    a property of [undefined] or [null] throws. *)
Definition get_prop (v : JsVal) (k : string) : Outcome JsVal :=
  match v with
  | VUndefined | VNull => Throw (cannot_read v k)
  | VObj fields =>
      match assoc k fields with
      | Some x => Ok x
      | None => Ok VUndefined
      end
  | VArr items =>
      if String.eqb k "length" then Ok (VNum (Z.of_nat (List.length items)))
      else Ok VUndefined
  | VStr s =>
      if String.eqb k "length" then Ok (VNum (Z.of_nat (String.length s)))
      else Ok VUndefined
  | VBool _ | VNum _ => Ok VUndefined
  end.

(** [v?.k]. *)
Definition get_prop_opt (v : JsVal) (k : string) : Outcome JsVal :=
  if nullish v then Ok VUndefined else get_prop v k.

Definition Z_to_string (z : Z) : string := NilZero.string_of_int (Z.to_int z).

Fixpoint sequence {A : Type} (l : list (Outcome A)) : Outcome (list A) :=
  match l with
  | [] => Ok []
  | o :: rest =>
      obind o (fun a => obind (sequence rest) (fun r => Ok (a :: r)))
  end.

(** [ToString].  An array joins its elements with commas ([undefined] and
    [null] elements print as empty); a plain object prints as
    [[object Object]] unless an own [toString] property, which in JSON data
    is never callable, hides [Object.prototype.toString]. *)
Fixpoint ToString (v : JsVal) : Outcome string :=
  match v with
  | VUndefined => Ok "undefined"
  | VNull => Ok "null"
  | VBool true => Ok "true"
  | VBool false => Ok "false"
  | VNum z => Ok (Z_to_string z)
  | VStr s => Ok s
  | VArr items =>
      obind
        (sequence
           (map (fun x => if nullish x then Ok EmptyString else ToString x) items))
        (fun parts => Ok (String.concat "," parts))
  | VObj fields =>
      match assoc "toString" fields with
      | Some _ => Throw (TypeError "Cannot convert object to primitive value")
      | None => Ok "[object Object]"
      end
  end.

(** ** [JSON.stringify(value, null, 2)] *)

Definition hex_digit (n : N) : ascii :=
  match n with
  | 0%N => "0" | 1%N => "1" | 2%N => "2" | 3%N => "3" | 4%N => "4"
  | 5%N => "5" | 6%N => "6" | 7%N => "7" | 8%N => "8" | 9%N => "9"
  | 10%N => "a" | 11%N => "b" | 12%N => "c" | 13%N => "d" | 14%N => "e"
  | _ => "f"
  end%char.

Definition backslash : string := String (ascii_of_nat 92) EmptyString.
Definition dquote : string := String (ascii_of_nat 34) EmptyString.
Definition newline : string := String (ascii_of_nat 10) EmptyString.

(** One character of [QuoteJSONString]. *)
Definition quote_char (c : ascii) : string :=
  let n := N_of_ascii c in
  if (n =? 8)%N then backslash ++ "b"
  else if (n =? 9)%N then backslash ++ "t"
  else if (n =? 10)%N then backslash ++ "n"
  else if (n =? 12)%N then backslash ++ "f"
  else if (n =? 13)%N then backslash ++ "r"
  else if (n =? 34)%N then backslash ++ dquote
  else if (n =? 92)%N then backslash ++ backslash
  else if (n <? 32)%N then
    backslash ++ "u00" ++ String (hex_digit (n / 16)) (String (hex_digit (n mod 16)) EmptyString)
  else String c EmptyString.

Fixpoint quote_chars (s : string) : string :=
  match s with
  | EmptyString => EmptyString
  | String c rest => quote_char c ++ quote_chars rest
  end.

Definition QuoteJSONString (s : string) : string :=
  dquote ++ quote_chars s ++ dquote.

Definition gap : string := "  ".

(** The text of a non-empty or empty array or object, [ind] being the
    indentation of the enclosing line and [members] the texts of the
    members, already serialized at [ind ++ gap]. *)
Definition wrap_members (opening closing ind : string) (members : list string) : string :=
  match members with
  | [] => opening ++ closing
  | _ =>
      opening ++ newline ++ ind ++ gap
        ++ String.concat ("," ++ newline ++ ind ++ gap) members
        ++ newline ++ ind ++ closing
  end.

(** [SerializeJSONProperty]: [None] stands for [undefined].  A property
    whose value serializes to [undefined] is left out of its object; such
    an element of an array is written [null].  Properties are kept in
    the order of the object. *)
Fixpoint SerializeJSONProperty (ind : string) (v : JsVal) : option string :=
  match v with
  | VUndefined => None
  | VNull => Some "null"
  | VBool true => Some "true"
  | VBool false => Some "false"
  | VNum z => Some (Z_to_string z)
  | VStr s => Some (QuoteJSONString s)
  | VArr items =>
      Some (wrap_members "[" "]" ind
              (map (fun x =>
                      match SerializeJSONProperty (ind ++ gap) x with
                      | Some t => t
                      | None => "null"
                      end) items))
  | VObj fields =>
      Some (wrap_members "{" "}" ind
              (flat_map (fun kv =>
                           match SerializeJSONProperty (ind ++ gap) (snd kv) with
                           | Some t => [QuoteJSONString (fst kv) ++ ": " ++ t]
                           | None => []
                           end) fields))
  end.

Definition JSON_stringify (v : JsVal) : option string :=
  SerializeJSONProperty EmptyString v.

(** ** Numeric conversions *)

Section Conversions.

(** [StringToNumber], the value of a string read as a numeric literal.
    Its grammar is the engine's and is not modelled: every result below
    holds whatever it answers. *)
Variable StringToNumber : string -> JsNumber.

(** [ToNumber].  Arrays and objects first become strings. *)
Definition ToNumber (v : JsVal) : Outcome JsNumber :=
  match v with
  | VUndefined => Ok NaN
  | VNull => Ok (Finite (inject_Z 0))
  | VBool b => Ok (Finite (inject_Z (if b then 1 else 0)))
  | VNum z => Ok (Finite (inject_Z z))
  | VStr s => Ok (StringToNumber s)
  | VArr _ | VObj _ => obind (ToString v) (fun s => Ok (StringToNumber s))
  end.

Definition ToIntegerOrInfinity (n : JsNumber) : IntOrInfinity :=
  match n with
  | NaN => Int 0
  | PosInfinity => PlusInf
  | NegInfinity => MinusInf
  | Finite q => Int (Z.quot (Qnum q) (Zpos (Qden q)))
  end.

(** [v > 0]. *)
Definition gt_zero (v : JsVal) : Outcome bool :=
  obind (ToNumber v)
    (fun n =>
       Ok (match n with
           | Finite q => (0 <? Qnum q)%Z
           | PosInfinity => true
           | NaN | NegInfinity => false
           end)).

(** The exclusive upper index of [slice(0, end)] on a sequence of [len]
    elements: an absent [end] means [len], a negative one counts from the
    back, and the result is clamped to [0 .. len]. *)
Definition slice_final (len : nat) (end_ : JsVal) : Outcome nat :=
  match end_ with
  | VUndefined => Ok len
  | _ =>
      obind (ToNumber end_)
        (fun n =>
           Ok (match ToIntegerOrInfinity n with
               | MinusInf => 0%nat
               | Int z =>
                   if (z <? 0)%Z then Z.to_nat (Z.max (Z.of_nat len + z) 0)
                   else Z.to_nat (Z.min z (Z.of_nat len))
               | PlusInf => len
               end))
  end.

(** [v.slice(0, end)] once [v.slice] has been read and [end] evaluated;
    [callee] is the text of [v.slice] in the source. *)
Definition call_slice (callee : string) (v end_ : JsVal) : Outcome JsVal :=
  match v with
  | VArr items =>
      obind (slice_final (List.length items) end_)
        (fun final => Ok (VArr (firstn final items)))
  | VStr s =>
      obind (slice_final (String.length s) end_)
        (fun final => Ok (VStr (substring 0 final s)))
  | _ => Throw (not_a_function callee)
  end.

End Conversions.

(** [v?.substring(0, n)]. *)
Definition substring_opt (callee : string) (v : JsVal) (n : nat) : Outcome JsVal :=
  match v with
  | VUndefined | VNull => Ok VUndefined
  | VStr s => Ok (VStr (substring 0 n s))
  | _ => Throw (not_a_function callee)
  end.

(** ** The world a handler runs in *)

(** A promise as the handler meets it when it awaits: settled, either
    fulfilled with a value or rejected with an error. *)
Definition Promise : Type := Outcome JsVal.

(** [require('./services/ragService')]. *)
Module ragService.

Record t : Type := Build {
  search : JsVal -> JsVal -> Promise
}.

End ragService.

(** [require('./services/paperlessService')]. *)
Module paperlessService.

Record t : Type := Build {
  getDocumentContent : JsVal -> Promise;
  getDocument : JsVal -> Promise;
  getTagNameById : JsVal -> Promise;
  getCorrespondentNameById : JsVal -> Promise
}.

End paperlessService.

(** Service calls, in the order they are issued. *)
Inductive Call : Type :=
| CallSearch (query filters : JsVal)
| CallGetDocumentContent (id : JsVal)
| CallGetDocument (id : JsVal)
| CallGetTagNameById (id : JsVal)
| CallGetCorrespondentNameById (id : JsVal).

(** - [process_env]: [process.env];
    - [rag], [paperless]: the two services with their current data (an
      answer depends on the arguments of the call only: the data behind
      the services does not change while a handler runs);
    - [settles_first]: when several promises given to [Promise.all]
      reject, the index (among the rejections) of the one that settles
      first;
    - [calls]: the service calls issued so far, latest last;
    - [console]: the lines written with [console.error], latest last. *)
Record World : Type := mkWorld {
  process_env : string -> option string;
  rag : ragService.t;
  paperless : paperlessService.t;
  settles_first : nat;
  calls : list Call;
  console : list (string * JsError)
}.

Definition record_call (c : Call) (w : World) : World :=
  mkWorld (process_env w) (rag w) (paperless w) (settles_first w)
          (calls w ++ [c]) (console w).

Definition record_line (line : string * JsError) (w : World) : World :=
  mkWorld (process_env w) (rag w) (paperless w) (settles_first w)
          (calls w) (console w ++ [line]).

(** ** Computations *)

Definition M (A : Type) : Type := World -> Outcome A * World.

Definition ret {A : Type} (a : A) : M A := fun w => (Ok a, w).

Definition throw {A : Type} (e : JsError) : M A := fun w => (Throw e, w).

Definition bind {A B : Type} (m : M A) (k : A -> M B) : M B :=
  fun w =>
    match m w with
    | (Ok a, w') => k a w'
    | (Throw e, w') => (Throw e, w')
    end.

(** [try { body } catch (error) { handler }]. *)
Definition try_catch {A : Type} (body : M A) (handler : JsError -> M A) : M A :=
  fun w =>
    match body w with
    | (Ok a, w') => (Ok a, w')
    | (Throw e, w') => handler e w'
    end.

(** An evaluation without effect on the world. *)
Definition lift {A : Type} (o : Outcome A) : M A := fun w => (o, w).

Declare Scope js_scope.
Delimit Scope js_scope with js.

Notation "x <- m ;; k" := (bind m (fun x => k))
  (at level 100, m at next level, right associativity) : js_scope.
Notation "m ;;; k" := (bind m (fun _ => k))
  (at level 100, right associativity) : js_scope.

Local Open Scope js_scope.

Definition read_env (key : string) : M (option string) :=
  fun w => (Ok (process_env w key), w).

Definition console_error (label : string) (error : JsError) : M unit :=
  fun w => (Ok tt, record_line (label, error) w).

(** [await p]. *)
Definition await (p : Promise) : M JsVal := lift p.

(** Calling a service issues the request and hands back its promise. *)
Definition ragService_search (query filters : JsVal) : M Promise :=
  fun w => (Ok (ragService.search (rag w) query filters),
            record_call (CallSearch query filters) w).

Definition paperlessService_getDocumentContent (id : JsVal) : M Promise :=
  fun w => (Ok (paperlessService.getDocumentContent (paperless w) id),
            record_call (CallGetDocumentContent id) w).

Definition paperlessService_getDocument (id : JsVal) : M Promise :=
  fun w => (Ok (paperlessService.getDocument (paperless w) id),
            record_call (CallGetDocument id) w).

Definition paperlessService_getTagNameById (id : JsVal) : M Promise :=
  fun w => (Ok (paperlessService.getTagNameById (paperless w) id),
            record_call (CallGetTagNameById id) w).

Definition paperlessService_getCorrespondentNameById (id : JsVal) : M Promise :=
  fun w => (Ok (paperlessService.getCorrespondentNameById (paperless w) id),
            record_call (CallGetCorrespondentNameById id) w).

(** Calling an [async] function: its body runs and its completion becomes
    the promise; the call itself does not throw.  The body is run to its
    end at the call, so bodies started together are not interleaved; this
    only fixes the order of their console lines. *)
Definition async {A : Type} (body : M A) : M (Outcome A) :=
  fun w => let (r, w') := body w in (Ok r, w').

Fixpoint rejections {A : Type} (ps : list (Outcome A)) : list JsError :=
  match ps with
  | [] => []
  | Ok _ :: rest => rejections rest
  | Throw e :: rest => e :: rejections rest
  end.

(** [await Promise.all(ps)]: the values in the order of [ps] when all are
    fulfilled, otherwise the rejection that settles first. *)
Definition Promise_all (ps : list Promise) : M (list JsVal) :=
  fun w =>
    match rejections ps with
    | [] => (sequence ps, w)
    | e :: es => (Throw (nth (settles_first w) (e :: es) e), w)
    end.

Fixpoint mapM {A B : Type} (f : A -> M B) (l : list A) : M (list B) :=
  match l with
  | [] => ret []
  | a :: rest =>
      b <- f a ;;
      bs <- mapM f rest ;;
      ret (b :: bs)
  end.

(** [v.map(f)] once [v.map] has been read; [callee] is the text of
    [v.map] in the source. *)
Definition call_map {B : Type} (callee : string) (v : JsVal) (f : JsVal -> M B)
  : M (list B) :=
  match v with
  | VArr items => mapM f items
  | _ => throw (not_a_function callee)
  end.

(** Reading [v.k] where the method [k] is about to be called on [v]. *)
Definition read_method (v : JsVal) (k : string) : M unit :=
  if nullish v then throw (cannot_read v k) else ret tt.

(** ** Response envelopes *)

Record ContentItem : Type := mkContent {
  type : string;
  text : option string
}.

Record ResponseEnvelope : Type := mkEnvelope {
  content : list ContentItem;
  isError : option bool
}.

(** [{ content: [{ type: "text", text: JSON.stringify(payload, null, 2) }] }] *)
Definition success_envelope (payload : JsVal) : ResponseEnvelope :=
  mkEnvelope [mkContent "text" (JSON_stringify payload)] None.

(** The same with [isError: true]. *)
Definition error_envelope (payload : JsVal) : ResponseEnvelope :=
  mkEnvelope [mkContent "text" (JSON_stringify payload)] (Some true).

Definition error_payload (msg : string) : JsVal := VObj [("error", VStr msg)].

(** ** The server *)

Section Server.

Variable StringToNumber : string -> JsNumber.

Definition rag_disabled_message : string :=
  "RAG service is not enabled. Please enable it in your environment configuration.".

(** [value !== 'true'] for a variable of the environment. *)
Definition not_true (value : option string) : bool :=
  match value with
  | Some s => negb (String.eqb s "true")
  | None => true
  end.

(** The capability gate is closed:
    [process.env.RAG_SERVICE_ENABLED !== 'true']. *)
Definition rag_disabled (w : World) : bool :=
  not_true (process_env w "RAG_SERVICE_ENABLED").

(** [doc.snippet || doc.text?.substring(0, 200)] *)
Definition snippet_of (doc : JsVal) : Outcome JsVal :=
  obind (get_prop doc "snippet")
    (fun snippet =>
       if truthy snippet then Ok snippet
       else
         obind (get_prop doc "text")
           (fun text => substring_opt "doc.text?.substring" text 200)).

(** The callback of [limitedResults.map]. *)
Definition project (doc : JsVal) : Outcome JsVal :=
  obind (get_prop doc "doc_id") (fun doc_id =>
  obind (get_prop doc "title") (fun title =>
  obind (get_prop doc "score") (fun score =>
  obind (snippet_of doc) (fun snippet =>
  Ok (VObj [("doc_id", doc_id); ("title", title); ("score", score);
            ("snippet", snippet)]))))).

Definition search_payload (query total_found : JsVal) (results : list JsVal) : JsVal :=
  VObj [("query", query); ("total_found", total_found); ("results", VArr results)].

(** The [try] block of [searchDocuments]. *)
Definition searchDocuments_body (args : JsVal) : M ResponseEnvelope :=
  enabled <- read_env "RAG_SERVICE_ENABLED" ;;
  if not_true enabled then
    ret (error_envelope (error_payload rag_disabled_message))
  else
    query <- lift (get_prop args "query") ;;
    from_date <- lift (get_prop args "from_date") ;;
    to_date <- lift (get_prop args "to_date") ;;
    correspondent <- lift (get_prop args "correspondent") ;;
    p <- ragService_search query
           (VObj [("from_date", from_date); ("to_date", to_date);
                  ("correspondent", correspondent)]) ;;
    results <- await p ;;
    read_method results "slice" ;;;
    max_results <- lift (get_prop args "max_results") ;;
    limitedResults <-
      lift (call_slice StringToNumber "results.slice" results
              (js_or max_results (VNum 5))) ;;
    query' <- lift (get_prop args "query") ;;
    total_found <- lift (get_prop results "length") ;;
    read_method limitedResults "map" ;;;
    projected <-
      call_map "limitedResults.map" limitedResults (fun doc => lift (project doc)) ;;
    ret (success_envelope (search_payload query' total_found projected)).

Definition searchDocuments (args : JsVal) : M ResponseEnvelope :=
  try_catch (searchDocuments_body args)
    (fun error =>
       console_error "[MCP] Search error:" error ;;;
       ret (error_envelope (error_payload ("Search error: " ++ message error)))).

(** The callback of [metadata.tags.map]: an [async] function, so calling
    it yields a promise. *)
Definition resolve_tag (tagId : JsVal) : M Promise :=
  async
    (try_catch
       (p <- paperlessService_getTagNameById tagId ;;
        await p)
       (fun error =>
          label <- lift (ToString tagId) ;;
          console_error ("[MCP] Error fetching tag name for ID " ++ label ++ ":") error ;;;
          ret VNull)).

(** [let tagNames = []; if (metadata.tags && metadata.tags.length > 0) { ... }] *)
Definition resolve_tags (metadata : JsVal) : M (list JsVal) :=
  tags <- lift (get_prop metadata "tags") ;;
  if truthy tags then
    len <- lift (get_prop tags "length") ;;
    nonempty <- lift (gt_zero StringToNumber len) ;;
    if (nonempty : bool) then
      promises <- call_map "metadata.tags.map" tags resolve_tag ;;
      tagNames <- Promise_all promises ;;
      ret (filter not_null tagNames)
    else ret []
  else ret [].

(** [let correspondentName = null; if (metadata.correspondent) { ... }] *)
Definition resolve_correspondent (metadata : JsVal) : M JsVal :=
  id <- lift (get_prop metadata "correspondent") ;;
  if truthy id then
    try_catch
      (p <- paperlessService_getCorrespondentNameById id ;;
       correspondent <- await p ;;
       name <- lift (get_prop_opt correspondent "name") ;;
       ret (js_or name VNull))
      (fun error =>
         console_error "[MCP] Error fetching correspondent name:" error ;;;
         ret VNull)
  else ret VNull.

Definition document_payload (id title content : JsVal) (tags : list JsVal)
    (correspondent created document_type added modified : JsVal) : JsVal :=
  VObj [("id", id); ("title", title); ("content", content); ("tags", VArr tags);
        ("correspondent", correspondent); ("created", created);
        ("document_type", document_type); ("added", added);
        ("modified", modified)].

(** The [try] block of [getDocument]. *)
Definition getDocument_body (args : JsVal) : M ResponseEnvelope :=
  id1 <- lift (get_prop args "document_id") ;;
  p1 <- paperlessService_getDocumentContent id1 ;;
  id2 <- lift (get_prop args "document_id") ;;
  p2 <- paperlessService_getDocument id2 ;;
  both <- Promise_all [p1; p2] ;;
  let content := nth 0 both VUndefined in
  let metadata := nth 1 both VUndefined in
  tagNames <- resolve_tags metadata ;;
  correspondentName <- resolve_correspondent metadata ;;
  id <- lift (get_prop args "document_id") ;;
  title <- lift (get_prop metadata "title") ;;
  created <- lift (get_prop metadata "created") ;;
  document_type <- lift (get_prop metadata "document_type") ;;
  added <- lift (get_prop metadata "added") ;;
  modified <- lift (get_prop metadata "modified") ;;
  ret (success_envelope
         (document_payload id title content tagNames correspondentName
            created document_type added modified)).

Definition getDocument (args : JsVal) : M ResponseEnvelope :=
  try_catch (getDocument_body args)
    (fun error =>
       console_error "[MCP] Document retrieval error:" error ;;;
       ret (error_envelope
              (error_payload ("Document retrieval error: " ++ message error)))).

(** A tool call as the protocol layer hands it over: [request.params]
    with its [name] and its [arguments] ([undefined] when the caller sent
    none). *)
Record CallToolParams : Type := mkParams {
  name : string;
  arguments : JsVal
}.

Record CallToolRequest : Type := mkRequest { params : CallToolParams }.

(** The handler registered for [CallToolRequestSchema]. *)
Definition callTool (request : CallToolRequest) : M ResponseEnvelope :=
  let name := name (params request) in
  let args := arguments (params request) in
  if String.eqb name "search_documents" then searchDocuments args
  else if String.eqb name "get_document" then getDocument args
  else throw (Error ("Unknown tool: " ++ name)).

End Server.

(** ** The tool registry *)

Definition string_property (description : string) : JsVal :=
  VObj [("type", VStr "string"); ("description", VStr description)].

(** The array [tools] of [setupTools]. *)
Definition tools : list JsVal :=
  [VObj
     [("name", VStr "search_documents");
      ("description",
       VStr "Search documents using Paperless-AI's semantic RAG search");
      ("inputSchema",
       VObj
         [("type", VStr "object");
          ("properties",
           VObj
             [("query", string_property "Search terms or semantic query");
              ("max_results",
               VObj [("type", VStr "number");
                     ("description", VStr "Maximum documents to return");
                     ("default", VNum 5)]);
              ("from_date", string_property "Filter from date (YYYY-MM-DD)");
              ("to_date", string_property "Filter to date (YYYY-MM-DD)");
              ("correspondent", string_property "Filter by correspondent name")]);
          ("required", VArr [VStr "query"])])];
   VObj
     [("name", VStr "get_document");
      ("description",
       VStr "Retrieve full document content and metadata by document ID");
      ("inputSchema",
       VObj
         [("type", VStr "object");
          ("properties",
           VObj
             [("document_id",
               VObj [("type", VStr "number");
                     ("description", VStr "Document ID from search results")])]);
          ("required", VArr [VStr "document_id"])])]].


(** ** Vocabulary of the statements *)

(** The value of [o.k] for an object with the given own properties. *)
Definition own (fields : list (string * JsVal)) (k : string) : JsVal :=
  match assoc k fields with
  | Some x => x
  | None => VUndefined
  end.

(** The filters object [searchDocuments] builds from its arguments. *)
Definition filters_of (fields : list (string * JsVal)) : JsVal :=
  VObj [("from_date", own fields "from_date"); ("to_date", own fields "to_date");
        ("correspondent", own fields "correspondent")].

(** A match the projection accepts. *)
Definition projects (doc : JsVal) : Prop := exists r, project doc = Ok r.

(** What a settled promise leaves in a [Promise.all] whose rejections are
    turned into [null] by the caller. *)
Definition settled_or_null (p : Promise) : JsVal :=
  match p with
  | Ok v => v
  | Throw _ => VNull
  end.

(** The name the tag resolution yields for the tag identifier [n], [null]
    when it fails. *)
Definition tag_name (w : World) (n : Z) : JsVal :=
  settled_or_null (paperlessService.getTagNameById (paperless w) (VNum n)).

(** The tag identifiers a metadata object declares: the numbers of its
    [tags] array, none when [tags] is absent or otherwise falsy. *)
Inductive declares_tags (fields : list (string * JsVal)) : list Z -> Prop :=
| tags_listed (ids : list Z) :
    own fields "tags" = VArr (map VNum ids) -> declares_tags fields ids
| tags_missing :
    truthy (own fields "tags") = false -> declares_tags fields [].

(** The console lines of the failed tag resolutions. *)
Fixpoint tag_lines (w : World) (ids : list Z) : list (string * JsError) :=
  match ids with
  | [] => []
  | n :: rest =>
      match paperlessService.getTagNameById (paperless w) (VNum n) with
      | Ok _ => tag_lines w rest
      | Throw e =>
          ("[MCP] Error fetching tag name for ID " ++ Z_to_string n ++ ":", e)
            :: tag_lines w rest
      end
  end.

(** The correspondent name [getDocument] reports for a metadata object. *)
Definition correspondent_name (w : World) (fields : list (string * JsVal)) : JsVal :=
  let id := own fields "correspondent" in
  if truthy id then
    match paperlessService.getCorrespondentNameById (paperless w) id with
    | Ok c =>
        match get_prop_opt c "name" with
        | Ok name => js_or name VNull
        | Throw _ => VNull
        end
    | Throw _ => VNull
    end
  else VNull.

Definition correspondent_calls (fields : list (string * JsVal)) : list Call :=
  let id := own fields "correspondent" in
  if truthy id then [CallGetCorrespondentNameById id] else [].

Definition correspondent_lines (w : World) (fields : list (string * JsVal))
  : list (string * JsError) :=
  let id := own fields "correspondent" in
  if truthy id then
    match paperlessService.getCorrespondentNameById (paperless w) id with
    | Ok _ => []
    | Throw e => [("[MCP] Error fetching correspondent name:", e)]
    end
  else [].

(** Two worlds that differ at most in what has been recorded and logged. *)
Definition same_backing (w w' : World) : Prop :=
  process_env w' = process_env w /\ rag w' = rag w /\
  paperless w' = paperless w /\ settles_first w' = settles_first w.

(** What a search can observe of the world: the gate and the answers of
    the search service. *)
Definition search_view (w1 w2 : World) : Prop :=
  process_env w1 "RAG_SERVICE_ENABLED" = process_env w2 "RAG_SERVICE_ENABLED" /\
  forall q f, ragService.search (rag w1) q f = ragService.search (rag w2) q f.

(** A computation whose completion is the same in any two worlds with
    the same view, and which keeps their views equal. *)
Definition respects {A : Type} (m : M A) : Prop :=
  forall w1 w2, search_view w1 w2 ->
    fst (m w1) = fst (m w2) /\ search_view (snd (m w1)) (snd (m w2)).

(** A computation that only records calls and writes lines. *)
Definition keeps_backing {A : Type} (m : M A) : Prop :=
  forall w, same_backing w (snd (m w)).

(** The world after further calls and further console lines. *)
Definition extend (w : World) (cs : list Call) (ls : list (string * JsError)) : World :=
  mkWorld (process_env w) (rag w) (paperless w) (settles_first w)
          (calls w ++ cs) (console w ++ ls).

Definition tag_calls (ids : list Z) : list Call :=
  map (fun n => CallGetTagNameById (VNum n)) ids.

(** The two fetches every retrieval starts with. *)
Definition fetch_calls (id : JsVal) : list Call :=
  [CallGetDocumentContent id; CallGetDocument id].

(** *** Reading the registry *)

(** The value of [v.k], [undefined] where reading it throws. *)
Definition prop_of (v : JsVal) (k : string) : JsVal :=
  match get_prop v k with
  | Ok x => x
  | Throw _ => VUndefined
  end.


Definition items_of (v : JsVal) : list JsVal :=
  match v with
  | VArr items => items
  | _ => []
  end.

Definition keys_of (v : JsVal) : list string :=
  match v with
  | VObj fields => map fst fields
  | _ => []
  end.

(** The tools a listing announces. *)
Definition listed_tools (listing : JsVal) : list JsVal :=
  items_of (prop_of listing "tools").


(** The input schema a listing gives for the tool [name], [undefined]
    when it lists no such tool. *)
Definition schema_of (listing : JsVal) (name : string) : JsVal :=
  match
    find (fun tool =>
            match prop_of tool "name" with
            | VStr s => String.eqb s name
            | _ => false
            end) (listed_tools listing)
  with
  | Some tool => prop_of tool "inputSchema"
  | None => VUndefined
  end.

Definition declared_properties (listing : JsVal) (name : string) : list string :=
  keys_of (prop_of (schema_of listing name) "properties").

Definition declared_default (listing : JsVal) (name property : string) : JsVal :=
  prop_of (prop_of (prop_of (schema_of listing name) "properties") property) "default".

(** The listing the server answers. *)
Definition announced : JsVal := VObj [("tools", VArr tools)].

(** *** Searches *)

(** The filters object [searchDocuments] builds from any arguments. *)
Definition filters_from (args : JsVal) : JsVal :=
  VObj [("from_date", prop_of args "from_date"); ("to_date", prop_of args "to_date");
        ("correspondent", prop_of args "correspondent")].

(** What [searchDocuments] makes of the answer [results] of the search
    service: the steps after [await], none of which touches the world. *)
Definition search_response (StringToNumber : string -> JsNumber)
    (args results : JsVal) : Outcome ResponseEnvelope :=
  if nullish results then Throw (cannot_read results "slice")
  else
    obind (call_slice StringToNumber "results.slice" results
             (js_or (prop_of args "max_results") (VNum 5)))
      (fun limitedResults =>
         obind (get_prop results "length")
           (fun total_found =>
              if nullish limitedResults then Throw (cannot_read limitedResults "map")
              else
                match limitedResults with
                | VArr items =>
                    obind (sequence (map project items))
                      (fun projected =>
                         Ok (success_envelope
                               (search_payload (prop_of args "query") total_found
                                  projected)))
                | _ => Throw (not_a_function "limitedResults.map")
                end)).

(** The envelope of a failed search. *)
Definition search_error (e : JsError) : ResponseEnvelope :=
  error_envelope (error_payload ("Search error: " ++ message e)).


(** *** Invariants of computations *)

(** A computation that leaves the environment and the services alone,
    keeps what was recorded and logged, and adds only calls in [P]. *)
Definition emits (P : Call -> Prop) {A : Type} (m : M A) : Prop :=
  forall w, exists cs ls, snd (m w) = extend w cs ls /\ Forall P cs.

(** A computation all of whose normal results are in [Q]. *)
Definition returns {A : Type} (Q : A -> Prop) (m : M A) : Prop :=
  forall w a w', m w = (Ok a, w') -> Q a.

Definition is_name_resolution (c : Call) : Prop :=
  match c with
  | CallGetTagNameById _ | CallGetCorrespondentNameById _ => True
  | _ => False
  end.

Definition is_repository_call (c : Call) : Prop :=
  match c with
  | CallSearch _ _ => False
  | _ => True
  end.

(** An envelope as the handlers build them: one text item whose text is
    defined, [isError] absent or [true], and in the latter case a payload
    [{error: <message>}]. *)
Definition well_formed_envelope (envelope : ResponseEnvelope) : Prop :=
  (exists t, content envelope = [mkContent "text" (Some t)]) /\
  ((isError envelope = None /\
    exists fields, envelope = success_envelope (VObj fields)) \/
   (isError envelope = Some true /\
    exists msg, envelope = error_envelope (error_payload msg))).

(** What a retrieval can observe of the world: the repository and the
    order in which rejections settle. *)
Definition retrieval_view (w1 w2 : World) : Prop :=
  paperless w1 = paperless w2 /\ settles_first w1 = settles_first w2.

Definition agrees {A : Type} (m : M A) : Prop :=
  forall w1 w2, retrieval_view w1 w2 ->
    fst (m w1) = fst (m w2) /\ retrieval_view (snd (m w1)) (snd (m w2)).

(** The number of resolutions among [ids] that throw. *)
Definition failed_tags (w : World) (ids : list Z) : nat :=
  List.length (tag_lines w ids).

(** ** Sample data *)

(** A reading of strings of decimal digits, standing for [StringToNumber]
    in the examples; none of them converts a string. *)
Fixpoint digits_value (acc : Z) (s : string) : option Z :=
  match s with
  | EmptyString => Some acc
  | String c rest =>
      let n := Z.of_N (N_of_ascii c) in
      if ((48 <=? n) && (n <=? 57))%Z then digits_value (10 * acc + (n - 48)) rest
      else None
  end.

Definition decimal_literal (s : string) : JsNumber :=
  match digits_value 0 s with
  | Some z => Finite (inject_Z z)
  | None => NaN
  end.

Definition env_enabled (key : string) : option string :=
  if String.eqb key "RAG_SERVICE_ENABLED" then Some "true" else None.

Definition env_unset (key : string) : option string := None.

Definition sample_match (n : Z) : JsVal :=
  VObj [("doc_id", VNum n); ("title", VStr "Invoice"); ("score", VNum 1);
        ("text", VStr "Invoice text")].


(** A search service with eight matches for every query. *)
Definition eight_matches : ragService.t :=
  ragService.Build (fun _ _ => Ok (VArr (map sample_match [1; 2; 3; 4; 5; 6; 7; 8]%Z))).

(** A repository whose documents carry the tags 1 and 2 and no
    correspondent; tag 1 is called "finance", resolving tag 2 fails. *)
Definition sample_metadata : list (string * JsVal) :=
  [("title", VStr "Invoice"); ("tags", VArr [VNum 1; VNum 2]);
   ("correspondent", VNum 0); ("created", VStr "2024-03-15")].

Definition sample_repository : paperlessService.t :=
  paperlessService.Build
    (fun _ => Ok (VStr "Full text"))
    (fun _ => Ok (VObj sample_metadata))
    (fun id => match id with
               | VNum 1 => Ok (VStr "finance")
               | _ => Throw (Error "Request failed with status code 404")
               end)
    (fun _ => Ok (VObj [("name", VStr "Acme Corp")])).

(** A repository that is down. *)
Definition failing_repository : paperlessService.t :=
  paperlessService.Build
    (fun _ => Throw (Error "connect ECONNREFUSED"))
    (fun _ => Throw (Error "connect ECONNREFUSED"))
    (fun _ => Throw (Error "connect ECONNREFUSED"))
    (fun _ => Throw (Error "connect ECONNREFUSED")).

Definition sample_world : World :=
  mkWorld env_enabled eight_matches sample_repository 0 [] [].

Definition disabled_world : World :=
  mkWorld env_unset eight_matches sample_repository 0 [] [].

Definition offline_world : World :=
  mkWorld env_enabled eight_matches failing_repository 0 [] [].

Definition invoice_args (max_results : JsVal) : JsVal :=
  VObj [("query", VStr "invoice"); ("max_results", max_results)].

Definition document_args : JsVal := VObj [("document_id", VNum 123)].



(** A search service that answers with no list. *)
Definition no_list_world : World :=
  mkWorld env_enabled (ragService.Build (fun _ _ => Ok VNull)) sample_repository 0 [] [].







(** A search service with the same first three matches as
    [eight_matches], followed by five that are [null]. *)
Definition other_matches_world : World :=
  mkWorld env_enabled
    (ragService.Build
       (fun _ _ =>
          Ok (VArr (map sample_match [1; 2; 3]%Z
                      ++ [VNull; VNull; VNull; VNull; VNull]))))
    sample_repository 0 [] [].

(** ** Properties of the primitive operations *)

#[local] Arguments success_envelope : simpl never.
#[local] Arguments error_envelope : simpl never.
#[local] Arguments project : simpl never.
#[local] Arguments slice_final : simpl never.
#[local] Arguments own : simpl never.
#[local] Arguments record_call : simpl never.
#[local] Arguments record_line : simpl never.
#[local] Arguments String.append : simpl never.

Lemma get_prop_obj (fields : list (string * JsVal)) (k : string) :
  get_prop (VObj fields) k = Ok (own fields k).
Proof.
  unfold get_prop, own. destruct (assoc k fields); reflexivity.
Qed.

Lemma mapM_lift {A B : Type} (f : A -> Outcome B) (l : list A) (w : World) :
  mapM (fun a w0 => (f a, w0)) l w = (sequence (map f l), w).
Proof.
  induction l as [|a l IH]; simpl; [reflexivity|].
  unfold bind. destruct (f a) as [b|e]; simpl; [|reflexivity].
  rewrite IH. destruct (sequence (map f l)); reflexivity.
Qed.

Lemma bind_run {A B : Type} (m : M A) (k : A -> M B) (w w' : World) (a : A) :
  m w = (Ok a, w') -> bind m k w = k a w'.
Proof. intros H. unfold bind. now rewrite H. Qed.

Lemma bind_throws {A B : Type} (m : M A) (k : A -> M B) (w w' : World) (e : JsError) :
  m w = (Throw e, w') -> bind m k w = (Throw e, w').
Proof. intros H. unfold bind. now rewrite H. Qed.

Lemma try_catch_run {A : Type} (body : M A) (h : JsError -> M A) (w w' : World) (a : A) :
  body w = (Ok a, w') -> try_catch body h w = (Ok a, w').
Proof. intros H. unfold try_catch. now rewrite H. Qed.

Lemma try_catch_throws {A : Type} (body : M A) (h : JsError -> M A) (w w' : World)
    (e : JsError) :
  body w = (Throw e, w') -> try_catch body h w = h e w'.
Proof. intros H. unfold try_catch. now rewrite H. Qed.

Lemma lift_run {A : Type} (o : Outcome A) (a : A) (w : World) :
  o = Ok a -> lift o w = (Ok a, w).
Proof. now intros ->. Qed.




(** ** The handlers never throw *)

Section Properties.

Variable StringToNumber : string -> JsNumber.


Lemma searchDocuments_returns (args : JsVal) (w : World) :
  exists envelope w', searchDocuments StringToNumber args w = (Ok envelope, w').
Proof.
  unfold searchDocuments, try_catch.
  destruct (searchDocuments_body StringToNumber args w) as [[envelope|e] w'];
    unfold bind, console_error, ret; eauto.
Qed.

Lemma getDocument_returns (args : JsVal) (w : World) :
  exists envelope w', getDocument StringToNumber args w = (Ok envelope, w').
Proof.
  unfold getDocument, try_catch.
  destruct (getDocument_body StringToNumber args w) as [[envelope|e] w'];
    unfold bind, console_error, ret; eauto.
Qed.


(** ** The capability gate *)

(** C2.  While [RAG_SERVICE_ENABLED] is not ['true'], a search call answers,
    for every argument value, the error envelope ([isError: true]) whose
    payload is [{error: "RAG service is not enabled. ..."}], written out
    with that message in its text, and it leaves the world as it found
    it: no service call is issued, nothing is logged. *)
Theorem search_refused_while_disabled (args : JsVal) (w : World) :
  rag_disabled w = true ->
  searchDocuments StringToNumber args w =
    (Ok (error_envelope (error_payload rag_disabled_message)), w) /\
  isError (error_envelope (error_payload rag_disabled_message)) = Some true /\
  get_prop (error_payload rag_disabled_message) "error"
    = Ok (VStr rag_disabled_message) /\
  content (error_envelope (error_payload rag_disabled_message))
    = [mkContent "text"
         (Some ("{" ++ newline ++ gap ++ QuoteJSONString "error" ++ ": "
                  ++ dquote ++ rag_disabled_message ++ dquote ++ newline ++ "}"))] /\
  (forall envelope w',
      searchDocuments StringToNumber args w = (Ok envelope, w') -> calls w' = calls w).
Proof.
  intros Hgate.
  assert (Hrun : searchDocuments StringToNumber args w =
                 (Ok (error_envelope (error_payload rag_disabled_message)), w)).
  { unfold searchDocuments, try_catch, searchDocuments_body, bind, read_env.
    fold (rag_disabled w). rewrite Hgate. reflexivity. }
  repeat split; try assumption; try reflexivity.
  intros envelope w' H. rewrite Hrun in H. now inversion H.
Qed.

(** ** Dispatch *)

(** C5.  A call of ["search_documents"] is the search handler's and a
    call of ["get_document"] the retrieval handler's, each ending with
    that handler's envelope; a call of any other name throws
    [Error("Unknown tool: <name>")] to the caller and issues nothing. *)
Theorem callTool_dispatch (request : CallToolRequest) (w : World) :
  (name (params request) = "search_documents" ->
   callTool StringToNumber request w = searchDocuments StringToNumber (arguments (params request)) w /\
   exists envelope w', callTool StringToNumber request w = (Ok envelope, w')) /\
  (name (params request) = "get_document" ->
   callTool StringToNumber request w = getDocument StringToNumber (arguments (params request)) w /\
   exists envelope w', callTool StringToNumber request w = (Ok envelope, w')) /\
  (name (params request) <> "search_documents" ->
   name (params request) <> "get_document" ->
   callTool StringToNumber request w =
     (Throw (Error ("Unknown tool: " ++ name (params request))), w)).
Proof.
  unfold callTool. repeat split.
  - rewrite H. reflexivity.
  - rewrite H. apply searchDocuments_returns.
  - rewrite H. reflexivity.
  - rewrite H. apply getDocument_returns.
  - intros Hs Hg.
    apply String.eqb_neq in Hs. apply String.eqb_neq in Hg.
    rewrite Hs, Hg. reflexivity.
Qed.

(** ** Search *)

Lemma slice_final_positive (len : nat) (cap : Z) :
  (1 <= cap)%Z ->
  slice_final StringToNumber len (js_or (VNum cap) (VNum 5))
    = Ok (Nat.min (Z.to_nat cap) len).
Proof.
  intros Hcap. unfold js_or, truthy.
  destruct (Z.eqb_spec cap 0) as [->|_]; [lia|].
  unfold slice_final, ToNumber, ToIntegerOrInfinity, inject_Z. cbn [negb obind Qnum Qden].
  rewrite Z.quot_1_r.
  destruct (Z.ltb_spec cap 0) as [?|_]; [lia|].
  f_equal. lia.
Qed.

Lemma firstn_min_length {A : Type} (n : nat) (l : list A) :
  firstn (Nat.min n (List.length l)) l = firstn n l.
Proof.
  destruct (Nat.le_ge_cases n (List.length l)) as [H|H].
  - now rewrite Nat.min_l.
  - rewrite Nat.min_r by assumption.
    now rewrite firstn_all, firstn_all2.
Qed.




(** ** Independence from the record of calls and from the console *)

Lemma same_backing_refl (w : World) : same_backing w w.
Proof. repeat split. Qed.

Lemma same_backing_trans (w1 w2 w3 : World) :
  same_backing w1 w2 -> same_backing w2 w3 -> same_backing w1 w3.
Proof.
  unfold same_backing. intros (?&?&?&?) (?&?&?&?). repeat split; congruence.
Qed.

Lemma same_backing_view (w w' : World) : same_backing w w' -> search_view w w'.
Proof.
  intros (Henv & Hrag & _). split; [now rewrite Henv|].
  intros q f. now rewrite Hrag.
Qed.

Lemma respects_ret {A : Type} (a : A) : respects (ret a).
Proof. intros w1 w2 H. split; [reflexivity|exact H]. Qed.

Lemma respects_throw {A : Type} (e : JsError) : respects (@throw A e).
Proof. intros w1 w2 H. split; [reflexivity|exact H]. Qed.

Lemma respects_lift {A : Type} (o : Outcome A) : respects (lift o).
Proof. intros w1 w2 H. split; [reflexivity|exact H]. Qed.

Lemma respects_bind {A B : Type} (m : M A) (k : A -> M B) :
  respects m -> (forall a, respects (k a)) -> respects (bind m k).
Proof.
  intros Hm Hk w1 w2 H. unfold bind.
  destruct (Hm w1 w2 H) as [Hfst Hsnd].
  destruct (m w1) as [[a|e] w1'], (m w2) as [[a'|e'] w2']; simpl in *;
    try discriminate.
  - injection Hfst as <-. now apply Hk.
  - injection Hfst as <-. split; [reflexivity|assumption].
Qed.

Lemma respects_try_catch {A : Type} (m : M A) (h : JsError -> M A) :
  respects m -> (forall e, respects (h e)) -> respects (try_catch m h).
Proof.
  intros Hm Hh w1 w2 H. unfold try_catch.
  destruct (Hm w1 w2 H) as [Hfst Hsnd].
  destruct (m w1) as [[a|e] w1'], (m w2) as [[a'|e'] w2']; simpl in *;
    try discriminate.
  - split; assumption.
  - injection Hfst as <-. now apply Hh.
Qed.

Lemma respects_mapM {A B : Type} (f : A -> M B) (l : list A) :
  (forall a, respects (f a)) -> respects (mapM f l).
Proof.
  intros Hf. induction l as [|a l IH]; simpl.
  - apply respects_ret.
  - apply respects_bind; [apply Hf|]. intros b.
    apply respects_bind; [apply IH|]. intros bs. apply respects_ret.
Qed.

Lemma respects_console_error (label : string) (e : JsError) :
  respects (console_error label e).
Proof. intros w1 w2 H. split; [reflexivity|exact H]. Qed.

Lemma respects_read_gate : respects (read_env "RAG_SERVICE_ENABLED").
Proof.
  intros w1 w2 H. split; [|exact H]. unfold read_env. simpl.
  destruct H as [-> _]. reflexivity.
Qed.

Lemma respects_ragService_search (q f : JsVal) : respects (ragService_search q f).
Proof.
  intros w1 w2 [Henv Hsearch]. unfold ragService_search. simpl.
  split; [now rewrite Hsearch|]. split; assumption.
Qed.

Lemma respects_read_method (v : JsVal) (k : string) : respects (read_method v k).
Proof.
  unfold read_method. destruct (nullish v); [apply respects_throw|apply respects_ret].
Qed.

Lemma respects_call_map {B : Type} (callee : string) (v : JsVal) (f : JsVal -> M B) :
  (forall a, respects (f a)) -> respects (call_map callee v f).
Proof.
  intros Hf. destruct v; simpl; try apply respects_throw. now apply respects_mapM.
Qed.

Create HintDb respects.

#[local] Hint Resolve respects_ret respects_throw respects_lift respects_console_error
  respects_read_gate respects_ragService_search respects_read_method : respects.

Ltac respects_step :=
  first
    [ apply respects_bind; [|intros ?]
    | apply respects_call_map; intros ?
    | solve [auto with respects] ].

Lemma respects_searchDocuments (args : JsVal) :
  respects (searchDocuments StringToNumber args).
Proof.
  unfold searchDocuments, searchDocuments_body, await.
  apply respects_try_catch; [|intros e; repeat respects_step].
  apply respects_bind; [auto with respects|]. intros enabled.
  destruct (not_true enabled); repeat respects_step.
Qed.

Lemma keeps_ret {A : Type} (a : A) : keeps_backing (ret a).
Proof. intros w. apply same_backing_refl. Qed.

Lemma keeps_throw {A : Type} (e : JsError) : keeps_backing (@throw A e).
Proof. intros w. apply same_backing_refl. Qed.

Lemma keeps_lift {A : Type} (o : Outcome A) : keeps_backing (lift o).
Proof. intros w. apply same_backing_refl. Qed.

Lemma keeps_read_env (key : string) : keeps_backing (read_env key).
Proof. intros w. apply same_backing_refl. Qed.

Lemma keeps_bind {A B : Type} (m : M A) (k : A -> M B) :
  keeps_backing m -> (forall a, keeps_backing (k a)) -> keeps_backing (bind m k).
Proof.
  intros Hm Hk w. unfold bind. specialize (Hm w).
  destruct (m w) as [[a|e] w']; simpl in *; [|assumption].
  eapply same_backing_trans; [eassumption|apply Hk].
Qed.

Lemma keeps_try_catch {A : Type} (m : M A) (h : JsError -> M A) :
  keeps_backing m -> (forall e, keeps_backing (h e)) -> keeps_backing (try_catch m h).
Proof.
  intros Hm Hh w. unfold try_catch. specialize (Hm w).
  destruct (m w) as [[a|e] w']; simpl in *; [assumption|].
  eapply same_backing_trans; [eassumption|apply Hh].
Qed.

Lemma keeps_mapM {A B : Type} (f : A -> M B) (l : list A) :
  (forall a, keeps_backing (f a)) -> keeps_backing (mapM f l).
Proof.
  intros Hf. induction l as [|a l IH]; simpl.
  - apply keeps_ret.
  - apply keeps_bind; [apply Hf|]. intros b.
    apply keeps_bind; [apply IH|]. intros bs. apply keeps_ret.
Qed.

Lemma keeps_console_error (label : string) (e : JsError) :
  keeps_backing (console_error label e).
Proof. intros w. repeat split. Qed.

Lemma keeps_ragService_search (q f : JsVal) : keeps_backing (ragService_search q f).
Proof. intros w. repeat split. Qed.

Lemma keeps_read_method (v : JsVal) (k : string) : keeps_backing (read_method v k).
Proof.
  unfold read_method. destruct (nullish v); [apply keeps_throw|apply keeps_ret].
Qed.

Lemma keeps_call_map {B : Type} (callee : string) (v : JsVal) (f : JsVal -> M B) :
  (forall a, keeps_backing (f a)) -> keeps_backing (call_map callee v f).
Proof.
  intros Hf. destruct v; simpl; try apply keeps_throw. now apply keeps_mapM.
Qed.

Create HintDb keeps.

#[local] Hint Resolve keeps_ret keeps_throw keeps_lift keeps_read_env
  keeps_console_error keeps_ragService_search keeps_read_method : keeps.

Ltac keeps_step :=
  first
    [ apply keeps_bind; [|intros ?]
    | apply keeps_call_map; intros ?
    | solve [auto with keeps] ].

Lemma keeps_searchDocuments (args : JsVal) :
  keeps_backing (searchDocuments StringToNumber args).
Proof.
  unfold searchDocuments, searchDocuments_body, await.
  apply keeps_try_catch; [|intros e; repeat keeps_step].
  apply keeps_bind; [auto with keeps|]. intros enabled.
  destruct (not_true enabled); repeat keeps_step.
Qed.

(** C9.  The completion of a search call is determined by its arguments,
    the gate and the answers of the search service: two worlds that agree
    on these give the same envelope, whatever has been recorded or logged
    before.  A call changes neither the environment nor the services, so
    repeating it at once gives the same envelope again. *)
Theorem search_is_repeatable (args : JsVal) :
  (forall w1 w2,
      process_env w1 "RAG_SERVICE_ENABLED" = process_env w2 "RAG_SERVICE_ENABLED" ->
      (forall q f, ragService.search (rag w1) q f = ragService.search (rag w2) q f) ->
      fst (searchDocuments StringToNumber args w1)
        = fst (searchDocuments StringToNumber args w2)) /\
  (forall w,
      let first := searchDocuments StringToNumber args w in
      let second := searchDocuments StringToNumber args (snd first) in
      same_backing w (snd first) /\ fst second = fst first).
Proof.
  split.
  - intros w1 w2 Henv Hsearch.
    apply (respects_searchDocuments args w1 w2). split; assumption.
  - intros w first second.
    pose proof (keeps_searchDocuments args w) as Hkeep. fold first in Hkeep.
    split; [exact Hkeep|].
    symmetry. apply (respects_searchDocuments args w (snd first)).
    now apply same_backing_view.
Qed.

(** ** Retrieval *)

Lemma extend_nil (w : World) : extend w [] [] = w.
Proof. destruct w. unfold extend. simpl. now rewrite !app_nil_r. Qed.

Lemma extend_extend (w : World) (cs cs' : list Call) (ls ls' : list (string * JsError)) :
  extend (extend w cs ls) cs' ls' = extend w (cs ++ cs') (ls ++ ls').
Proof. unfold extend. simpl. now rewrite !app_assoc. Qed.

Lemma record_call_extend (c : Call) (w : World) : record_call c w = extend w [c] [].
Proof. destruct w. unfold record_call, extend. simpl. now rewrite app_nil_r. Qed.

Lemma record_line_extend (l : string * JsError) (w : World) :
  record_line l w = extend w [] [l].
Proof. destruct w. unfold record_line, extend. simpl. now rewrite app_nil_r. Qed.

Lemma tag_lines_extend (w : World) cs ls (ids : list Z) :
  tag_lines (extend w cs ls) ids = tag_lines w ids.
Proof. induction ids as [|n ids IH]; simpl; [reflexivity|]. now rewrite IH. Qed.

Lemma resolve_tag_run (n : Z) (w : World) :
  resolve_tag (VNum n) w =
    (Ok (Ok (tag_name w n)), extend w (tag_calls [n]) (tag_lines w [n])).
Proof.
  unfold resolve_tag, async, try_catch, bind, paperlessService_getTagNameById,
    await, lift, tag_name, tag_calls. simpl.
  rewrite record_call_extend.
  destruct (paperlessService.getTagNameById (paperless w) (VNum n)) as [v|e]; simpl.
  - reflexivity.
  - unfold console_error, ret. now rewrite record_line_extend, extend_extend.
Qed.

Lemma resolve_tag_all (ids : list Z) (w : World) :
  mapM resolve_tag (map VNum ids) w =
    (Ok (map (fun n => Ok (tag_name w n)) ids),
     extend w (tag_calls ids) (tag_lines w ids)).
Proof.
  revert w. induction ids as [|n ids IH]; intros w.
  - simpl. unfold ret. now rewrite extend_nil.
  - cbn [map mapM]. unfold bind at 1. rewrite resolve_tag_run.
    unfold bind at 1. rewrite IH. unfold ret.
    rewrite extend_extend, tag_lines_extend.
    unfold tag_name at 2. cbn [paperless extend].
    fold (tag_name w). f_equal.
    unfold tag_calls. cbn [map tag_lines app].
    destruct (paperlessService.getTagNameById (paperless w) (VNum n));
      reflexivity.
Qed.

Lemma sequence_fulfilled {A : Type} (vs : list A) :
  sequence (map Ok vs) = Ok vs /\ rejections (map (@Ok A) vs) = [].
Proof.
  induction vs as [|v vs [IH1 IH2]]; simpl; [now split|].
  rewrite IH1. now split.
Qed.

Lemma Promise_all_fulfilled (vs : list JsVal) (w : World) :
  Promise_all (map Ok vs) w = (Ok vs, w).
Proof.
  unfold Promise_all. destruct (sequence_fulfilled vs) as [-> ->]. reflexivity.
Qed.

(** The tag names of a metadata object: every declared tag is asked for,
    in order, and the names that came back and are not [null] are kept. *)
Lemma resolve_tags_run (fields : list (string * JsVal)) (ids : list Z) (w : World) :
  declares_tags fields ids ->
  resolve_tags StringToNumber (VObj fields) w =
    (Ok (filter not_null (map (tag_name w) ids)),
     extend w (tag_calls ids) (tag_lines w ids)).
Proof.
  intros Htags. unfold resolve_tags. unfold bind at 1, lift at 1.
  rewrite get_prop_obj. destruct Htags as [ids Htags|Htags]; rewrite Htags.
  - cbn [truthy get_prop String.eqb Ascii.eqb Bool.eqb].
    unfold bind at 1, lift at 1. unfold bind at 1, lift at 1.
    unfold gt_zero, ToNumber, inject_Z. cbn [obind Qnum].
    rewrite length_map.
    destruct ids as [|n ids].
    + simpl. unfold ret. now rewrite extend_nil.
    + cbn [List.length]. rewrite Nat2Z.inj_succ.
      destruct (Z.ltb_spec 0 (Z.succ (Z.of_nat (List.length ids)))) as [_|?]; [|lia].
      unfold call_map, bind. rewrite resolve_tag_all.
      rewrite <- (map_map (tag_name w) Ok), Promise_all_fulfilled.
      reflexivity.
  - simpl. unfold ret. now rewrite extend_nil.
Qed.

Lemma get_prop_opt_total (c : JsVal) (k : string) :
  exists v, get_prop_opt c k = Ok v.
Proof.
  destruct c; unfold get_prop_opt; simpl; eauto.
  - destruct (String.eqb k "length"); eauto.
  - destruct (String.eqb k "length"); eauto.
  - destruct (assoc k fields); eauto.
Qed.

Lemma resolve_correspondent_run (fields : list (string * JsVal)) (w : World) :
  resolve_correspondent (VObj fields) w =
    (Ok (correspondent_name w fields),
     extend w (correspondent_calls fields) (correspondent_lines w fields)).
Proof.
  unfold resolve_correspondent, correspondent_name, correspondent_calls,
    correspondent_lines.
  unfold bind at 1, lift at 1. rewrite get_prop_obj.
  destruct (truthy (own fields "correspondent")).
  - unfold try_catch, bind, paperlessService_getCorrespondentNameById, await, lift.
    rewrite record_call_extend. cbn [paperless extend].
    destruct (paperlessService.getCorrespondentNameById (paperless w)
                (own fields "correspondent")) as [c|e].
    + destruct (get_prop_opt_total c "name") as [v ->]. reflexivity.
    + unfold console_error, ret. now rewrite record_line_extend, extend_extend.
  - unfold ret. now rewrite extend_nil.
Qed.

(** A retrieval whose two fetches succeed, for a metadata object whose
    tags are well formed. *)
Lemma getDocument_success (args id content : JsVal) (fields : list (string * JsVal))
    (ids : list Z) (w : World) :
  get_prop args "document_id" = Ok id ->
  paperlessService.getDocumentContent (paperless w) id = Ok content ->
  paperlessService.getDocument (paperless w) id = Ok (VObj fields) ->
  declares_tags fields ids ->
  getDocument StringToNumber args w =
    (Ok (success_envelope
           (document_payload id (own fields "title") content
              (filter not_null (map (tag_name w) ids))
              (correspondent_name w fields)
              (own fields "created") (own fields "document_type")
              (own fields "added") (own fields "modified"))),
     extend w (fetch_calls id ++ tag_calls ids ++ correspondent_calls fields)
       (tag_lines w ids ++ correspondent_lines w fields)).
Proof.
  intros Hid Hcontent Hmeta Htags.
  apply try_catch_run. unfold getDocument_body.
  rewrite (bind_run _ _ w w id) by now apply lift_run.
  erewrite bind_run by reflexivity.
  rewrite (bind_run _ _ _ _ id) by now apply lift_run.
  erewrite bind_run by reflexivity.
  rewrite !record_call_extend, extend_extend. cbn [paperless extend].
  rewrite Hcontent, Hmeta.
  erewrite bind_run by reflexivity. cbn [nth].
  erewrite bind_run by (apply resolve_tags_run; eassumption).
  erewrite bind_run by apply resolve_correspondent_run.
  rewrite !extend_extend, !tag_lines_extend.
  rewrite (bind_run _ _ _ _ id) by now apply lift_run.
  repeat (erewrite bind_run by (apply lift_run, get_prop_obj)).
  unfold ret, tag_name, correspondent_name, correspondent_lines, fetch_calls.
  cbn [paperless extend app]. reflexivity.
Qed.









End Properties.

(** ** The scenarios of the specification *)




Lemma search_refused_while_disabled_witness :
  searchDocuments decimal_literal (invoice_args VUndefined) disabled_world =
    (Ok (error_envelope (error_payload rag_disabled_message)), disabled_world) /\
  isError (error_envelope (error_payload rag_disabled_message)) = Some true /\
  get_prop (error_payload rag_disabled_message) "error"
    = Ok (VStr rag_disabled_message) /\
  content (error_envelope (error_payload rag_disabled_message))
    = [mkContent "text"
         (Some ("{" ++ newline ++ gap ++ QuoteJSONString "error" ++ ": "
                  ++ dquote ++ rag_disabled_message ++ dquote ++ newline ++ "}"))] /\
  (forall envelope w',
      searchDocuments decimal_literal (invoice_args VUndefined) disabled_world
        = (Ok envelope, w') ->
      calls w' = calls disabled_world).
Proof.
  apply (search_refused_while_disabled decimal_literal (invoice_args VUndefined)
           disabled_world).
  reflexivity.
Defined.



Lemma callTool_dispatch_witness :
  callTool decimal_literal (mkRequest (mkParams "delete_document" VUndefined))
    sample_world
    = (Throw (Error "Unknown tool: delete_document"), sample_world).
Proof.
  apply (proj2 (proj2 (callTool_dispatch decimal_literal
                         (mkRequest (mkParams "delete_document" VUndefined))
                         sample_world))); discriminate.
Defined.




(** The same search in a world where calls have already been recorded. *)
Lemma search_is_repeatable_witness :
  fst (searchDocuments decimal_literal (invoice_args (VNum 3)) sample_world)
    = fst (searchDocuments decimal_literal (invoice_args (VNum 3))
             (extend sample_world (fetch_calls (VNum 123)) [])).
Proof.
  apply (proj1 (search_is_repeatable decimal_literal (invoice_args (VNum 3)))
           sample_world (extend sample_world (fetch_calls (VNum 123)) [])).
  - reflexivity.
  - intros q f. reflexivity.
Defined.


(** ** Further properties of the search handler *)

Section SearchHandler.

Variable StringToNumber : string -> JsNumber.

Lemma get_prop_total (v : JsVal) (k : string) :
  nullish v = false -> get_prop v k = Ok (prop_of v k).
Proof.
  intros Hv. unfold prop_of.
  destruct v; try discriminate; simpl.
  - reflexivity.
  - reflexivity.
  - destruct (String.eqb k "length"); reflexivity.
  - destruct (String.eqb k "length"); reflexivity.
  - destruct (assoc k fields); reflexivity.
Qed.

Lemma get_prop_nullish (v : JsVal) (k : string) :
  nullish v = true -> get_prop v k = Throw (cannot_read v k).
Proof. destruct v; try discriminate; reflexivity. Qed.

Lemma prop_of_obj (fields : list (string * JsVal)) (k : string) :
  prop_of (VObj fields) k = own fields k.
Proof. unfold prop_of. now rewrite get_prop_obj. Qed.

(** The steps of [searchDocuments] after the answer of the service. *)
Lemma search_tail_run (args results : JsVal) (w : World) :
  nullish args = false ->
  (read_method results "slice" ;;;
   max_results <- lift (get_prop args "max_results") ;;
   limitedResults <-
     lift (call_slice StringToNumber "results.slice" results
             (js_or max_results (VNum 5))) ;;
   query' <- lift (get_prop args "query") ;;
   total_found <- lift (get_prop results "length") ;;
   read_method limitedResults "map" ;;;
   projected <-
     call_map "limitedResults.map" limitedResults (fun doc => lift (project doc)) ;;
   ret (success_envelope (search_payload query' total_found projected)))%js w
  = (search_response StringToNumber args results, w).
Proof.
  intros Hargs. unfold search_response, read_method.
  rewrite !(get_prop_total args) by assumption.
  destruct (nullish results); [reflexivity|].
  unfold bind, lift, ret. cbn.
  destruct (call_slice StringToNumber "results.slice" results
              (js_or (prop_of args "max_results") (VNum 5))) as [limited|e];
    [|reflexivity].
  cbn. destruct (get_prop results "length") as [total|e]; [|reflexivity].
  cbn. destruct (nullish limited) eqn:Hlimited; [reflexivity|].
  cbn. unfold call_map, throw.
  destruct limited; try reflexivity.
  unfold lift. rewrite mapM_lift.
  destruct (sequence (map project items)); reflexivity.
Qed.

(** A search that passes the gate with arguments it can read: one call of
    the service, then the envelope made of its answer, or the error
    envelope of what went wrong. *)
Lemma searchDocuments_run (args : JsVal) (w : World) :
  rag_disabled w = false ->
  nullish args = false ->
  searchDocuments StringToNumber args w =
    let w1 := record_call (CallSearch (prop_of args "query") (filters_from args)) w in
    match
      obind (ragService.search (rag w) (prop_of args "query") (filters_from args))
        (search_response StringToNumber args)
    with
    | Ok envelope => (Ok envelope, w1)
    | Throw e => (Ok (search_error e), record_line ("[MCP] Search error:", e) w1)
    end.
Proof.
  intros Hgate Hargs.
  assert (Hbody :
    searchDocuments_body StringToNumber args w =
      (obind (ragService.search (rag w) (prop_of args "query") (filters_from args))
         (search_response StringToNumber args),
       record_call (CallSearch (prop_of args "query") (filters_from args)) w)).
  { unfold searchDocuments_body.
    rewrite (bind_run _ _ w w (process_env w "RAG_SERVICE_ENABLED")) by reflexivity.
    fold (rag_disabled w). rewrite Hgate.
    rewrite (bind_run _ _ w w (prop_of args "query"))
      by (apply lift_run, get_prop_total, Hargs).
    rewrite (bind_run _ _ w w (prop_of args "from_date"))
      by (apply lift_run, get_prop_total, Hargs).
    rewrite (bind_run _ _ w w (prop_of args "to_date"))
      by (apply lift_run, get_prop_total, Hargs).
    rewrite (bind_run _ _ w w (prop_of args "correspondent"))
      by (apply lift_run, get_prop_total, Hargs).
    fold (filters_from args).
    erewrite bind_run by reflexivity.
    destruct (ragService.search (rag w) (prop_of args "query") (filters_from args))
      as [results|e].
    - rewrite (bind_run _ _ _ _ results) by reflexivity.
      cbn [obind]. now apply search_tail_run.
    - now apply bind_throws. }
  unfold searchDocuments, try_catch. rewrite Hbody. cbn zeta.
  destruct (obind _ _); reflexivity.
Qed.

Lemma searchDocuments_disabled (args : JsVal) (w : World) :
  rag_disabled w = true ->
  searchDocuments StringToNumber args w =
    (Ok (error_envelope (error_payload rag_disabled_message)), w).
Proof.
  intros Hgate. unfold searchDocuments, try_catch, searchDocuments_body, bind, read_env.
  fold (rag_disabled w). now rewrite Hgate.
Qed.

Lemma searchDocuments_unreadable (args : JsVal) (w : World) :
  rag_disabled w = false ->
  nullish args = true ->
  searchDocuments StringToNumber args w =
    (Ok (search_error (cannot_read args "query")),
     extend w [] [("[MCP] Search error:", cannot_read args "query")]).
Proof.
  intros Hgate Hargs.
  unfold searchDocuments.
  rewrite (try_catch_throws _ _ w w (cannot_read args "query")).
  - unfold bind, console_error, ret. now rewrite record_line_extend.
  - unfold searchDocuments_body.
    rewrite (bind_run _ _ w w (process_env w "RAG_SERVICE_ENABLED")) by reflexivity.
    fold (rag_disabled w). rewrite Hgate.
    apply bind_throws. unfold lift. now rewrite get_prop_nullish.
Qed.



(** X3.  Whatever the arguments and whatever the service answers, a
    search leaves the environment and the services as they were, keeps
    every earlier record, and issues no call when the gate is closed or
    the arguments are missing, and otherwise exactly one: a search with
    the [query] and the three filters as the arguments give them
    ([undefined] where missing).  [max_results] is never forwarded and
    the repository is never called. *)
Theorem search_issues_one_call (args : JsVal) (w : World) :
  exists ls,
    snd (searchDocuments StringToNumber args w) =
      extend w
        (if rag_disabled w || nullish args then []
         else [CallSearch (prop_of args "query") (filters_from args)])
        ls.
Proof.
  destruct (rag_disabled w) eqn:Hgate.
  - exists []. rewrite (searchDocuments_disabled args w Hgate). cbn.
    now rewrite extend_nil.
  - destruct (nullish args) eqn:Hargs; cbn [orb].
    + eexists. now rewrite (searchDocuments_unreadable args w Hgate Hargs).
    + rewrite (searchDocuments_run args w Hgate Hargs). cbn zeta.
      destruct (obind _ _) as [envelope|e]; cbn [snd].
      * exists []. apply record_call_extend.
      * eexists. now rewrite record_call_extend, record_line_extend, extend_extend.
Qed.

Lemma search_response_agree (args1 args2 results : JsVal) :
  prop_of args1 "query" = prop_of args2 "query" ->
  js_or (prop_of args1 "max_results") (VNum 5)
    = js_or (prop_of args2 "max_results") (VNum 5) ->
  search_response StringToNumber args1 results
    = search_response StringToNumber args2 results.
Proof.
  intros Hq Hcap. unfold search_response. now rewrite Hq, Hcap.
Qed.

(** Two argument objects that give the same query, the same filters and
    the same cap are served alike. *)
Lemma search_agree (fields1 fields2 : list (string * JsVal)) (w : World) :
  own fields1 "query" = own fields2 "query" ->
  own fields1 "from_date" = own fields2 "from_date" ->
  own fields1 "to_date" = own fields2 "to_date" ->
  own fields1 "correspondent" = own fields2 "correspondent" ->
  js_or (own fields1 "max_results") (VNum 5)
    = js_or (own fields2 "max_results") (VNum 5) ->
  searchDocuments StringToNumber (VObj fields1) w
    = searchDocuments StringToNumber (VObj fields2) w.
Proof.
  intros Hq Hfrom Hto Hcorr Hcap.
  destruct (rag_disabled w) eqn:Hgate.
  - now rewrite !searchDocuments_disabled.
  - rewrite !searchDocuments_run by (assumption || reflexivity).
    unfold filters_from. rewrite !prop_of_obj, Hq, Hfrom, Hto, Hcorr.
    cbn zeta.
    destruct (ragService.search (rag w) (own fields2 "query") _) as [results|e];
      [|reflexivity].
    cbn [obind].
    rewrite (search_response_agree (VObj fields1) (VObj fields2));
      rewrite ?prop_of_obj; auto.
Qed.

(** X4.  A [max_results] that is missing or falsy ([0], [null], [false],
    an empty string) is served exactly as the default the tool's schema
    declares for it. *)
Theorem falsy_cap_is_the_declared_default (fields : list (string * JsVal)) (w : World) :
  truthy (own fields "max_results") = false ->
  searchDocuments StringToNumber (VObj fields) w =
    searchDocuments StringToNumber
      (VObj (("max_results", declared_default announced "search_documents" "max_results")
               :: fields)) w.
Proof.
  intros Hfalsy. apply search_agree; try reflexivity.
  unfold js_or. now rewrite Hfalsy.
Qed.

(** X5.  The search handler reads no argument beyond the properties its
    schema declares: two argument objects that agree on those are served
    alike. *)
Theorem undeclared_search_arguments_are_ignored
    (fields1 fields2 : list (string * JsVal)) (w : World) :
  (forall k, In k (declared_properties announced "search_documents") ->
             own fields1 k = own fields2 k) ->
  searchDocuments StringToNumber (VObj fields1) w
    = searchDocuments StringToNumber (VObj fields2) w.
Proof.
  intros H. apply search_agree; try (apply H; cbn; tauto).
  rewrite (H "max_results") by (cbn; tauto). reflexivity.
Qed.



Lemma search_response_array (args : JsVal) (docs : list JsVal) (n : nat) :
  slice_final StringToNumber (List.length docs)
    (js_or (prop_of args "max_results") (VNum 5)) = Ok n ->
  search_response StringToNumber args (VArr docs) =
    obind (sequence (map project (firstn n docs)))
      (fun projected =>
         Ok (success_envelope
               (search_payload (prop_of args "query")
                  (VNum (Z.of_nat (List.length docs))) projected))).
Proof.
  intros Hslice. unfold search_response, call_slice. cbn [nullish].
  rewrite Hslice. reflexivity.
Qed.

(** X7.  Matches beyond the cap only count: two answers of the service
    with the same first [cap] matches and the same length give the same
    envelope, whatever the other matches are. *)
Theorem matches_beyond_the_cap_only_count (fields : list (string * JsVal))
    (w1 w2 : World) (kept rest1 rest2 : list JsVal) (cap : Z) :
  rag_disabled w1 = false ->
  rag_disabled w2 = false ->
  ragService.search (rag w1) (own fields "query") (filters_of fields)
    = Ok (VArr (kept ++ rest1)) ->
  ragService.search (rag w2) (own fields "query") (filters_of fields)
    = Ok (VArr (kept ++ rest2)) ->
  List.length rest1 = List.length rest2 ->
  own fields "max_results" = VNum cap ->
  (1 <= cap)%Z ->
  (Z.to_nat cap <= List.length kept)%nat ->
  fst (searchDocuments StringToNumber (VObj fields) w1)
    = fst (searchDocuments StringToNumber (VObj fields) w2).
Proof.
  intros Hgate1 Hgate2 Hsearch1 Hsearch2 Hlen Hcap Hpos Hkept.
  rewrite !searchDocuments_run by (assumption || reflexivity).
  unfold filters_from. rewrite !prop_of_obj. fold (filters_of fields).
  rewrite Hsearch1, Hsearch2. cbn [obind].
  assert (Hresponse : forall rest,
    search_response StringToNumber (VObj fields) (VArr (kept ++ rest)) =
      obind (sequence (map project (firstn (Z.to_nat cap) kept)))
        (fun projected =>
           Ok (success_envelope
                 (search_payload (own fields "query")
                    (VNum (Z.of_nat (List.length kept + List.length rest)))
                    projected)))).
  { intros rest.
    rewrite (search_response_array _ _
               (Nat.min (Z.to_nat cap) (List.length (kept ++ rest)))).
    - rewrite firstn_min_length, firstn_app.
      replace (Z.to_nat cap - List.length kept)%nat with 0%nat by lia.
      cbn [firstn]. now rewrite app_nil_r, prop_of_obj, length_app.
    - rewrite prop_of_obj, Hcap. now apply slice_final_positive. }
  rewrite !Hresponse, Hlen. cbn zeta.
  destruct (obind _ _); reflexivity.
Qed.



Lemma search_response_not_array (args results : JsVal) :
  (forall docs, results <> VArr docs) ->
  exists e, search_response StringToNumber args results = Throw e.
Proof.
  intros Hresults. unfold search_response.
  destruct results; cbn [nullish call_slice obind]; eauto.
  - destruct (slice_final _ _ _) as [final|e]; cbn [obind]; [|eauto].
    destruct (String.eqb "length" "length"); cbn; eauto.
  - now destruct (Hresults items).
Qed.

(** X9.  When the search service answers with anything but an array, the
    handler answers an error envelope: it never reports results it did
    not get as a list. *)
Theorem answer_without_list_is_an_error (args results : JsVal) (w : World) :
  rag_disabled w = false ->
  nullish args = false ->
  ragService.search (rag w) (prop_of args "query") (filters_from args) = Ok results ->
  (forall docs, results <> VArr docs) ->
  exists e,
    searchDocuments StringToNumber args w =
      (Ok (error_envelope (error_payload ("Search error: " ++ message e))),
       extend w [CallSearch (prop_of args "query") (filters_from args)]
         [("[MCP] Search error:", e)]).
Proof.
  intros Hgate Hargs Hsearch Hresults.
  destruct (search_response_not_array args results Hresults) as [e He].
  exists e. rewrite (searchDocuments_run args w Hgate Hargs), Hsearch.
  cbn [obind]. rewrite He. cbn.
  now rewrite record_call_extend, record_line_extend, extend_extend.
Qed.

(** X10.  The projection accepts exactly the matches that are neither
    [undefined] nor [null] and that have a truthy snippet, or no text, or
    a string as text; a match with any other text and no snippet is
    rejected. *)
Theorem accepted_matches (d : JsVal) :
  projects d <->
  nullish d = false /\
  (truthy (prop_of d "snippet") = true \/
   nullish (prop_of d "text") = true \/
   exists t, prop_of d "text" = VStr t).
Proof.
  unfold projects, project, snippet_of.
  destruct (nullish d) eqn:Hd.
  - rewrite (get_prop_nullish d "doc_id" Hd). cbn [obind]. split.
    + intros [r Hr]. discriminate.
    + intros [Hfalse _]. discriminate.
  - rewrite !(get_prop_total d) by assumption. cbn [obind].
    destruct (truthy (prop_of d "snippet")).
    + split; [intros _; split; [reflexivity|now left]|intros _; eexists; reflexivity].
    + destruct (prop_of d "text"); cbn [substring_opt obind nullish]; split;
        try (intros _; split; [reflexivity|]; (right; left; reflexivity)
                                              || (right; right; eexists; reflexivity));
        try (intros _; eexists; reflexivity);
        try (intros [r Hr]; discriminate);
        intros [_ [H|[H|[t H]]]]; discriminate.
Qed.

End SearchHandler.

(** ** Further properties of the retrieval handler *)

Section RetrievalHandler.

Variable StringToNumber : string -> JsNumber.


(** The [try] block of [getDocument] once both fetches are issued. *)
Lemma getDocument_body_fetches (args : JsVal) (w : World) :
  nullish args = false ->
  let id := prop_of args "document_id" in
  getDocument_body StringToNumber args w =
    (both <-
       Promise_all [paperlessService.getDocumentContent (paperless w) id;
                    paperlessService.getDocument (paperless w) id] ;;
     let content := nth 0 both VUndefined in
     let metadata := nth 1 both VUndefined in
     tagNames <- resolve_tags StringToNumber metadata ;;
     correspondentName <- resolve_correspondent metadata ;;
     id <- lift (get_prop args "document_id") ;;
     title <- lift (get_prop metadata "title") ;;
     created <- lift (get_prop metadata "created") ;;
     document_type <- lift (get_prop metadata "document_type") ;;
     added <- lift (get_prop metadata "added") ;;
     modified <- lift (get_prop metadata "modified") ;;
     ret (success_envelope
            (document_payload id title content tagNames correspondentName
               created document_type added modified)))%js
      (extend w (fetch_calls id) []).
Proof.
  intros Hargs id. unfold getDocument_body.
  rewrite (bind_run _ _ w w id) by (apply lift_run, get_prop_total, Hargs).
  erewrite bind_run by reflexivity.
  rewrite (bind_run _ _ _ _ id) by (apply lift_run, get_prop_total, Hargs).
  erewrite bind_run by reflexivity.
  rewrite !record_call_extend, extend_extend. reflexivity.
Qed.





Lemma In_filter_names (w : World) (ids : list Z) (v : JsVal) :
  In v (filter not_null (map (tag_name w) ids)) ->
  exists n, In n ids /\
            paperlessService.getTagNameById (paperless w) (VNum n) = Ok v /\
            v <> VNull.
Proof.
  intros Hin. apply filter_In in Hin. destruct Hin as [Hin Hnull].
  apply in_map_iff in Hin. destruct Hin as (n & Hname & Hn).
  exists n. split; [assumption|]. unfold tag_name in Hname.
  destruct (paperlessService.getTagNameById (paperless w) (VNum n)) as [x|e];
    cbn [settled_or_null] in Hname; subst v.
  - split; [reflexivity|]. intros ->. discriminate.
  - discriminate.
Qed.

(** X14.  In a successful retrieval the reported tags are never more than
    the declared ones, and each of them is a value, other than [null],
    that the repository gave as the name of a declared tag. *)
Theorem reported_tags_are_resolved_names (args id content : JsVal)
    (fields : list (string * JsVal)) (ids : list Z) (w : World) :
  get_prop args "document_id" = Ok id ->
  paperlessService.getDocumentContent (paperless w) id = Ok content ->
  paperlessService.getDocument (paperless w) id = Ok (VObj fields) ->
  declares_tags fields ids ->
  exists names correspondent w',
    getDocument StringToNumber args w =
      (Ok (success_envelope
             (document_payload id (own fields "title") content names correspondent
                (own fields "created") (own fields "document_type")
                (own fields "added") (own fields "modified"))), w') /\
    (List.length names <= List.length ids)%nat /\
    forall v, In v names ->
      exists n, In n ids /\
                paperlessService.getTagNameById (paperless w) (VNum n) = Ok v /\
                v <> VNull.
Proof.
  intros Hid Hcontent Hmeta Htags.
  exists (filter not_null (map (tag_name w) ids)). do 2 eexists.
  split; [apply (getDocument_success StringToNumber args id content fields ids w);
          assumption|].
  split.
  - rewrite <- (length_map (tag_name w) ids). apply filter_length_le.
  - apply In_filter_names.
Qed.




(** X17.  The retrieval handler reads no argument beyond [document_id],
    the one property its schema declares: two argument objects that
    agree on it are served alike. *)
Theorem undeclared_retrieval_arguments_are_ignored
    (fields1 fields2 : list (string * JsVal)) (w : World) :
  (forall k, In k (declared_properties announced "get_document") ->
             own fields1 k = own fields2 k) ->
  getDocument StringToNumber (VObj fields1) w
    = getDocument StringToNumber (VObj fields2) w.
Proof.
  intros H. unfold getDocument, getDocument_body.
  rewrite !get_prop_obj, (H "document_id") by (cbn; tauto). reflexivity.
Qed.

(** *** What a retrieval records *)

Lemma emits_ret {A : Type} (P : Call -> Prop) (a : A) : emits P (ret a).
Proof. intros w. exists [], []. cbn. now rewrite extend_nil. Qed.

Lemma emits_throw {A : Type} (P : Call -> Prop) (e : JsError) : emits P (@throw A e).
Proof. intros w. exists [], []. cbn. now rewrite extend_nil. Qed.

Lemma emits_lift {A : Type} (P : Call -> Prop) (o : Outcome A) : emits P (lift o).
Proof. intros w. exists [], []. cbn. now rewrite extend_nil. Qed.

Lemma emits_Promise_all (P : Call -> Prop) (ps : list Promise) :
  emits P (Promise_all ps).
Proof.
  intros w. exists [], []. unfold Promise_all.
  destruct (rejections ps); cbn; now rewrite extend_nil.
Qed.

Lemma emits_console_error (P : Call -> Prop) (label : string) (e : JsError) :
  emits P (console_error label e).
Proof.
  intros w. exists [], [(label, e)]. cbn. now rewrite record_line_extend.
Qed.

Lemma emits_bind {A B : Type} (P : Call -> Prop) (m : M A) (k : A -> M B) :
  emits P m -> (forall a, emits P (k a)) -> emits P (bind m k).
Proof.
  intros Hm Hk w. unfold bind. destruct (Hm w) as (cs & ls & Hw & Hcs).
  destruct (m w) as [[a|e] w1]; cbn [snd] in *; subst w1.
  - destruct (Hk a (extend w cs ls)) as (cs' & ls' & Hw' & Hcs').
    exists (cs ++ cs')%list, (ls ++ ls')%list.
    rewrite Hw', extend_extend. split; [reflexivity|]. now apply Forall_app.
  - now exists cs, ls.
Qed.

Lemma emits_try_catch {A : Type} (P : Call -> Prop) (m : M A) (h : JsError -> M A) :
  emits P m -> (forall e, emits P (h e)) -> emits P (try_catch m h).
Proof.
  intros Hm Hh w. unfold try_catch. destruct (Hm w) as (cs & ls & Hw & Hcs).
  destruct (m w) as [[a|e] w1]; cbn [snd] in *; subst w1.
  - now exists cs, ls.
  - destruct (Hh e (extend w cs ls)) as (cs' & ls' & Hw' & Hcs').
    exists (cs ++ cs')%list, (ls ++ ls')%list.
    rewrite Hw', extend_extend. split; [reflexivity|]. now apply Forall_app.
Qed.

Lemma emits_async {A : Type} (P : Call -> Prop) (m : M A) :
  emits P m -> emits P (async m).
Proof.
  intros Hm w. unfold async. destruct (Hm w) as (cs & ls & Hw & Hcs).
  destruct (m w) as [r w1]. now exists cs, ls.
Qed.

Lemma emits_mapM {A B : Type} (P : Call -> Prop) (f : A -> M B) (l : list A) :
  (forall a, emits P (f a)) -> emits P (mapM f l).
Proof.
  intros Hf. induction l as [|a l IH]; cbn [mapM].
  - apply emits_ret.
  - apply emits_bind; [apply Hf|]. intros b.
    apply emits_bind; [apply IH|]. intros bs. apply emits_ret.
Qed.

Lemma emits_call_map {B : Type} (P : Call -> Prop) (callee : string) (v : JsVal)
    (f : JsVal -> M B) :
  (forall a, emits P (f a)) -> emits P (call_map callee v f).
Proof.
  intros Hf. destruct v; cbn [call_map]; try apply emits_throw. now apply emits_mapM.
Qed.

Lemma emits_getTagNameById (id : JsVal) :
  emits is_name_resolution (paperlessService_getTagNameById id).
Proof.
  intros w. exists [CallGetTagNameById id], []. cbn.
  rewrite record_call_extend. split; [reflexivity|]. now constructor.
Qed.

Lemma emits_getCorrespondentNameById (id : JsVal) :
  emits is_name_resolution (paperlessService_getCorrespondentNameById id).
Proof.
  intros w. exists [CallGetCorrespondentNameById id], []. cbn.
  rewrite record_call_extend. split; [reflexivity|]. now constructor.
Qed.

Create HintDb emits.

#[local] Hint Resolve emits_ret emits_throw emits_lift emits_Promise_all
  emits_console_error emits_getTagNameById emits_getCorrespondentNameById : emits.

Ltac emits_step :=
  first
    [ apply emits_bind; [|intros ?]
    | apply emits_try_catch; [|intros ?]
    | apply emits_async
    | apply emits_call_map; intros ?
    | solve [auto with emits] ].

Lemma emits_resolve_tags (metadata : JsVal) :
  emits is_name_resolution (resolve_tags StringToNumber metadata).
Proof.
  unfold resolve_tags. apply emits_bind; [auto with emits|]. intros tags.
  destruct (truthy tags); [|auto with emits].
  apply emits_bind; [auto with emits|]. intros len.
  apply emits_bind; [auto with emits|]. intros nonempty.
  destruct nonempty; [|auto with emits].
  unfold resolve_tag, await. repeat emits_step.
Qed.

Lemma emits_resolve_correspondent (metadata : JsVal) :
  emits is_name_resolution (resolve_correspondent metadata).
Proof.
  unfold resolve_correspondent. apply emits_bind; [auto with emits|]. intros id.
  destruct (truthy id); [|auto with emits].
  unfold await. repeat emits_step.
Qed.

(** X18.  A retrieval whose arguments can be read always issues both
    fetches first, for the [document_id] it was given, whatever they
    answer; every later call resolves a tag or a correspondent name.  The
    search service is never called, and the environment, the services and
    every earlier record are left as they were. *)
Theorem retrieval_fetches_then_resolves (args : JsVal) (w : World) :
  nullish args = false ->
  exists cs ls,
    snd (getDocument StringToNumber args w) =
      extend w (fetch_calls (prop_of args "document_id") ++ cs) ls /\
    Forall is_name_resolution cs.
Proof.
  intros Hargs.
  pose proof (getDocument_body_fetches args w Hargs) as Hbody. cbn zeta in Hbody.
  match type of Hbody with
  | _ = ?m ?w2 =>
      assert (Hrest : emits is_name_resolution m);
        [|destruct (Hrest w2) as (cs & ls & Hw & Hcs)]
  end.
  { apply emits_bind; [auto with emits|]. intros both.
    cbn zeta.
    apply emits_bind; [apply emits_resolve_tags|]. intros tagNames.
    apply emits_bind; [apply emits_resolve_correspondent|]. intros correspondentName.
    repeat emits_step. }
  rewrite <- Hbody in Hw. rewrite extend_extend in Hw. cbn [app] in Hw.
  unfold getDocument, try_catch.
  destruct (getDocument_body StringToNumber args w) as [[envelope|e] w1];
    cbn [snd] in *; subst w1.
  - exists cs, ls. split; [reflexivity|assumption].
  - exists cs, (ls ++ [("[MCP] Document retrieval error:", e)])%list.
    split; [|assumption].
    unfold bind, console_error, ret. cbn [snd].
    now rewrite record_line_extend, extend_extend, app_nil_r.
Qed.

(** *** What a retrieval depends on *)

Lemma agrees_ret {A : Type} (a : A) : agrees (ret a).
Proof. intros w1 w2 H. split; [reflexivity|exact H]. Qed.

Lemma agrees_throw {A : Type} (e : JsError) : agrees (@throw A e).
Proof. intros w1 w2 H. split; [reflexivity|exact H]. Qed.

Lemma agrees_lift {A : Type} (o : Outcome A) : agrees (lift o).
Proof. intros w1 w2 H. split; [reflexivity|exact H]. Qed.

Lemma agrees_console_error (label : string) (e : JsError) :
  agrees (console_error label e).
Proof. intros w1 w2 H. split; [reflexivity|exact H]. Qed.

Lemma agrees_Promise_all (ps : list Promise) : agrees (Promise_all ps).
Proof.
  intros w1 w2 H. unfold Promise_all.
  destruct H as [Hrepo Hfirst]. rewrite Hfirst.
  destruct (rejections ps); (split; [reflexivity|now split]).
Qed.

Lemma agrees_bind {A B : Type} (m : M A) (k : A -> M B) :
  agrees m -> (forall a, agrees (k a)) -> agrees (bind m k).
Proof.
  intros Hm Hk w1 w2 H. unfold bind.
  destruct (Hm w1 w2 H) as [Hfst Hsnd].
  destruct (m w1) as [[a|e] w1'], (m w2) as [[a'|e'] w2']; simpl in *;
    try discriminate.
  - injection Hfst as <-. now apply Hk.
  - injection Hfst as <-. split; [reflexivity|assumption].
Qed.

Lemma agrees_try_catch {A : Type} (m : M A) (h : JsError -> M A) :
  agrees m -> (forall e, agrees (h e)) -> agrees (try_catch m h).
Proof.
  intros Hm Hh w1 w2 H. unfold try_catch.
  destruct (Hm w1 w2 H) as [Hfst Hsnd].
  destruct (m w1) as [[a|e] w1'], (m w2) as [[a'|e'] w2']; simpl in *;
    try discriminate.
  - split; assumption.
  - injection Hfst as <-. now apply Hh.
Qed.

Lemma agrees_async {A : Type} (m : M A) : agrees m -> agrees (async m).
Proof.
  intros Hm w1 w2 H. unfold async. destruct (Hm w1 w2 H) as [Hfst Hsnd].
  destruct (m w1) as [r1 w1'], (m w2) as [r2 w2']; simpl in *.
  split; [now rewrite Hfst|assumption].
Qed.

Lemma agrees_mapM {A B : Type} (f : A -> M B) (l : list A) :
  (forall a, agrees (f a)) -> agrees (mapM f l).
Proof.
  intros Hf. induction l as [|a l IH]; cbn [mapM].
  - apply agrees_ret.
  - apply agrees_bind; [apply Hf|]. intros b.
    apply agrees_bind; [apply IH|]. intros bs. apply agrees_ret.
Qed.

Lemma agrees_call_map {B : Type} (callee : string) (v : JsVal) (f : JsVal -> M B) :
  (forall a, agrees (f a)) -> agrees (call_map callee v f).
Proof.
  intros Hf. destruct v; cbn [call_map]; try apply agrees_throw. now apply agrees_mapM.
Qed.

Lemma agrees_getDocumentContent (id : JsVal) :
  agrees (paperlessService_getDocumentContent id).
Proof.
  intros w1 w2 [Hrepo Hfirst]. unfold paperlessService_getDocumentContent. cbn.
  split; [now rewrite Hrepo|]. split; assumption.
Qed.

Lemma agrees_getDocument (id : JsVal) : agrees (paperlessService_getDocument id).
Proof.
  intros w1 w2 [Hrepo Hfirst]. unfold paperlessService_getDocument. cbn.
  split; [now rewrite Hrepo|]. split; assumption.
Qed.

Lemma agrees_getTagNameById (id : JsVal) : agrees (paperlessService_getTagNameById id).
Proof.
  intros w1 w2 [Hrepo Hfirst]. unfold paperlessService_getTagNameById. cbn.
  split; [now rewrite Hrepo|]. split; assumption.
Qed.

Lemma agrees_getCorrespondentNameById (id : JsVal) :
  agrees (paperlessService_getCorrespondentNameById id).
Proof.
  intros w1 w2 [Hrepo Hfirst]. unfold paperlessService_getCorrespondentNameById. cbn.
  split; [now rewrite Hrepo|]. split; assumption.
Qed.

Create HintDb agrees.

#[local] Hint Resolve agrees_ret agrees_throw agrees_lift agrees_console_error
  agrees_Promise_all agrees_getDocumentContent agrees_getDocument
  agrees_getTagNameById agrees_getCorrespondentNameById : agrees.

Ltac agrees_step :=
  first
    [ apply agrees_bind; [|intros ?]
    | apply agrees_try_catch; [|intros ?]
    | apply agrees_async
    | apply agrees_call_map; intros ?
    | solve [auto with agrees] ].

Lemma agrees_resolve_tags (metadata : JsVal) :
  agrees (resolve_tags StringToNumber metadata).
Proof.
  unfold resolve_tags. apply agrees_bind; [auto with agrees|]. intros tags.
  destruct (truthy tags); [|auto with agrees].
  apply agrees_bind; [auto with agrees|]. intros len.
  apply agrees_bind; [auto with agrees|]. intros nonempty.
  destruct nonempty; [|auto with agrees].
  unfold resolve_tag, await. repeat agrees_step.
Qed.

Lemma agrees_resolve_correspondent (metadata : JsVal) :
  agrees (resolve_correspondent metadata).
Proof.
  unfold resolve_correspondent. apply agrees_bind; [auto with agrees|]. intros id.
  destruct (truthy id); [|auto with agrees].
  unfold await. repeat agrees_step.
Qed.

Lemma agrees_getDocument_handler (args : JsVal) :
  agrees (getDocument StringToNumber args).
Proof.
  unfold getDocument, getDocument_body.
  apply agrees_try_catch; [|intros e; repeat agrees_step].
  do 5 (apply agrees_bind; [auto with agrees|]; intros ?). cbn zeta.
  apply agrees_bind; [apply agrees_resolve_tags|]. intros tagNames.
  apply agrees_bind; [apply agrees_resolve_correspondent|]. intros correspondentName.
  repeat agrees_step.
Qed.

(** X19.  The envelope of a retrieval depends on the repository alone
    (and, when both fetches reject, on which rejection settles first):
    it is the same whether or not the search capability is enabled,
    whatever the search service is, and whatever was recorded before. *)
Theorem retrieval_ignores_the_search_gate (args : JsVal) (w1 w2 : World) :
  paperless w1 = paperless w2 ->
  settles_first w1 = settles_first w2 ->
  fst (getDocument StringToNumber args w1) = fst (getDocument StringToNumber args w2).
Proof.
  intros Hrepo Hfirst.
  apply (agrees_getDocument_handler args w1 w2). split; assumption.
Qed.

(** *** The shape of every answer *)

Lemma returns_ret {A : Type} (Q : A -> Prop) (a : A) : Q a -> returns Q (ret a).
Proof. intros Ha w a' w' H. injection H as <- _. exact Ha. Qed.

Lemma returns_throw {A : Type} (Q : A -> Prop) (e : JsError) : returns Q (@throw A e).
Proof. intros w a w' H. discriminate. Qed.

Lemma returns_bind {A B : Type} (Q : B -> Prop) (m : M A) (k : A -> M B) :
  (forall a, returns Q (k a)) -> returns Q (bind m k).
Proof.
  intros Hk w b w' H. unfold bind in H.
  destruct (m w) as [[a|e] w1]; [|discriminate]. now apply (Hk a w1 b w').
Qed.

Lemma returns_try_catch {A : Type} (Q : A -> Prop) (m : M A) (h : JsError -> M A) :
  returns Q m -> (forall e, returns Q (h e)) -> returns Q (try_catch m h).
Proof.
  intros Hm Hh w a w' H. unfold try_catch in H.
  destruct (m w) as [[a0|e] w1] eqn:Hrun.
  - injection H as <- <-. now apply (Hm w a0 w1).
  - now apply (Hh e w1 a w').
Qed.

Lemma well_formed_success (fields : list (string * JsVal)) :
  well_formed_envelope (success_envelope (VObj fields)).
Proof.
  split; [eexists; reflexivity|]. left. split; [reflexivity|]. now exists fields.
Qed.

Lemma well_formed_error (msg : string) :
  well_formed_envelope (error_envelope (error_payload msg)).
Proof.
  split; [eexists; reflexivity|]. right. split; [reflexivity|]. now exists msg.
Qed.

Lemma returns_searchDocuments (args : JsVal) :
  returns well_formed_envelope (searchDocuments StringToNumber args).
Proof.
  unfold searchDocuments, searchDocuments_body.
  apply returns_try_catch.
  - apply returns_bind. intros enabled. destruct (not_true enabled).
    + apply returns_ret, well_formed_error.
    + do 13 (apply returns_bind; intros ?).
      apply returns_ret, well_formed_success.
  - intros e. apply returns_bind. intros _. apply returns_ret, well_formed_error.
Qed.

Lemma returns_getDocument (args : JsVal) :
  returns well_formed_envelope (getDocument StringToNumber args).
Proof.
  unfold getDocument, getDocument_body.
  apply returns_try_catch.
  - do 5 (apply returns_bind; intros ?). cbn zeta.
    do 8 (apply returns_bind; intros ?).
    apply returns_ret, well_formed_success.
  - intros e. apply returns_bind. intros _. apply returns_ret, well_formed_error.
Qed.

(** X20.  Every envelope a tool call answers has exactly one content
    item, of type ["text"], whose text is defined; [isError] is either
    absent, on the envelope of a payload object, or [true], on the
    envelope of a payload [{error: <message>}].  It is never [false]. *)
Theorem answers_are_well_formed (request : CallToolRequest) (w w' : World)
    (envelope : ResponseEnvelope) :
  callTool StringToNumber request w = (Ok envelope, w') ->
  well_formed_envelope envelope.
Proof.
  unfold callTool.
  destruct (String.eqb (name (params request)) "search_documents").
  - apply returns_searchDocuments.
  - destruct (String.eqb (name (params request)) "get_document").
    + apply returns_getDocument.
    + discriminate.
Qed.


End RetrievalHandler.

(** ** Further scenarios *)



Lemma falsy_cap_is_the_declared_default_witness :
  searchDocuments decimal_literal (invoice_args (VNum 0)) sample_world =
    searchDocuments decimal_literal
      (VObj (("max_results", declared_default announced "search_documents" "max_results")
               :: [("query", VStr "invoice"); ("max_results", VNum 0)]))
      sample_world.
Proof.
  apply (falsy_cap_is_the_declared_default decimal_literal
           [("query", VStr "invoice"); ("max_results", VNum 0)] sample_world).
  reflexivity.
Defined.

Lemma undeclared_search_arguments_are_ignored_witness :
  searchDocuments decimal_literal (VObj [("query", VStr "invoice")]) sample_world =
    searchDocuments decimal_literal
      (VObj [("query", VStr "invoice"); ("language", VStr "en")]) sample_world.
Proof.
  apply (undeclared_search_arguments_are_ignored decimal_literal
           [("query", VStr "invoice")]
           [("query", VStr "invoice"); ("language", VStr "en")] sample_world).
  intros k [<-|[<-|[<-|[<-|[<-|[]]]]]]; reflexivity.
Defined.


Lemma matches_beyond_the_cap_only_count_witness :
  fst (searchDocuments decimal_literal (invoice_args (VNum 3)) sample_world)
    = fst (searchDocuments decimal_literal (invoice_args (VNum 3)) other_matches_world).
Proof.
  apply (matches_beyond_the_cap_only_count decimal_literal
           [("query", VStr "invoice"); ("max_results", VNum 3)]
           sample_world other_matches_world
           (map sample_match [1; 2; 3]%Z)
           (map sample_match [4; 5; 6; 7; 8]%Z)
           [VNull; VNull; VNull; VNull; VNull] 3%Z);
    try reflexivity; simpl; lia.
Defined.


Lemma answer_without_list_is_an_error_witness :
  exists e,
    searchDocuments decimal_literal (invoice_args VUndefined) no_list_world =
      (Ok (error_envelope (error_payload ("Search error: " ++ message e))),
       extend no_list_world
         [CallSearch (VStr "invoice") (filters_from (invoice_args VUndefined))]
         [("[MCP] Search error:", e)]).
Proof.
  apply (answer_without_list_is_an_error decimal_literal (invoice_args VUndefined)
           VNull no_list_world).
  - reflexivity.
  - reflexivity.
  - reflexivity.
  - intros docs. discriminate.
Defined.




Lemma reported_tags_are_resolved_names_witness :
  exists names correspondent w',
    getDocument decimal_literal document_args sample_world =
      (Ok (success_envelope
             (document_payload (VNum 123) (VStr "Invoice") (VStr "Full text") names
                correspondent (VStr "2024-03-15") VUndefined VUndefined VUndefined)),
       w') /\
    (List.length names <= 2)%nat /\
    forall v, In v names ->
      exists n, In n [1; 2]%Z /\
                paperlessService.getTagNameById (paperless sample_world) (VNum n)
                  = Ok v /\
                v <> VNull.
Proof.
  apply (reported_tags_are_resolved_names decimal_literal document_args (VNum 123)
           (VStr "Full text") sample_metadata [1; 2]%Z sample_world
           eq_refl eq_refl eq_refl).
  apply tags_listed. reflexivity.
Defined.



Lemma undeclared_retrieval_arguments_are_ignored_witness :
  getDocument decimal_literal document_args sample_world =
    getDocument decimal_literal
      (VObj [("document_id", VNum 123); ("include_content", VBool false)])
      sample_world.
Proof.
  apply (undeclared_retrieval_arguments_are_ignored decimal_literal
           [("document_id", VNum 123)]
           [("document_id", VNum 123); ("include_content", VBool false)]
           sample_world).
  intros k [<-|[]]. reflexivity.
Defined.

Lemma retrieval_fetches_then_resolves_witness :
  exists cs ls,
    snd (getDocument decimal_literal document_args offline_world) =
      extend offline_world (fetch_calls (prop_of document_args "document_id") ++ cs) ls /\
    Forall is_name_resolution cs.
Proof.
  apply (retrieval_fetches_then_resolves decimal_literal document_args offline_world).
  reflexivity.
Defined.

(** The sample repository behind a closed gate. *)
Lemma retrieval_ignores_the_search_gate_witness :
  fst (getDocument decimal_literal document_args sample_world)
    = fst (getDocument decimal_literal document_args disabled_world).
Proof.
  apply (retrieval_ignores_the_search_gate decimal_literal document_args
           sample_world disabled_world);
    reflexivity.
Defined.

Lemma answers_are_well_formed_witness :
  well_formed_envelope (error_envelope (error_payload rag_disabled_message)).
Proof.
  apply (answers_are_well_formed decimal_literal
           (mkRequest (mkParams "search_documents" (invoice_args VUndefined)))
           disabled_world disabled_world
           (error_envelope (error_payload rag_disabled_message))).
  reflexivity.
Defined.

